(** * An in-memory key/value store with scalar entries and LIFO queues

    Shallow embedding of [server.go]: the [Datastore] (a map from keys to
    [Data] entries), its operations [Set], [Get], [QPush], [QPop] and
    [BQPop], the validators, the command parser and the dispatcher
    [HandleCommand], followed by the properties of the specification that
    were checked against them.

    Conventions of the embedding.
    - Go strings are byte sequences; they are Rocq [string]s (lists of
      8-bit [ascii]), so [len] is [String.length] and slicing is by byte.
    - [int] and [time.Duration] are 64-bit; they are [Z] with the
      wrap-around [wrap64] written where the code multiplies.
    - [time.Time] is a [Z]: nanoseconds since the zero [Time], so that
      [IsZero t] is [t = 0].  Every operation that reads [time.Now()] takes
      the reading as an argument [now].
    - [map[string]*Data] is a [gmap string Data].  Every key owns the
      pointer stored under it (each [&Data{...}] is stored under one key
      only), so an update through the pointer is an update of the map at
      that key.
    - The mutex only serialises whole operations; one operation is one
      function from store to store. *)

From Stdlib Require Import ZArith String Ascii List Bool Lia.
From Stdlib Require Import Floats.SpecFloat.
From stdpp Require Import base option list gmap strings.

Local Open Scope string_scope.
Local Open Scope list_scope.
Local Open Scope Z_scope.

(** ** Numbers, durations and instants *)

(** An [int64] result that left the range wraps around. *)
Definition wrap64 (z : Z) : Z := (z + 2 ^ 63) mod 2 ^ 64 - 2 ^ 63.

Definition Duration := Z.
Definition Time := Z.

Definition Nanosecond : Duration := 1.
Definition Millisecond : Duration := 1000000.
Definition Second : Duration := 1000000000.

(** The zero value of [time.Time] and the methods used by the store. *)
Definition Time_zero : Time := 0.
Definition IsZero (t : Time) : bool := t =? 0.
Definition Add (t : Time) (d : Duration) : Time := t + d.
Definition Before (t u : Time) : bool := t <? u.
Definition After (t u : Time) : bool := t >? u.

(** ** HTTP status codes *)

Definition StatusOK : Z := 200.
Definition StatusBadRequest : Z := 400.
Definition StatusNotFound : Z := 404.
Definition StatusConflict : Z := 409.

(** ** The store *)

Record Data := mkData {
  value : string;
  expiry : Time;
  isQueued : bool;
  queue : list string
}.

Record Datastore := mkDatastore {
  data : gmap string Data
}.

Definition NewDatastore : Datastore := {| data := ∅ |}.

(** [ds.data[key] = d] *)
Definition store (ds : Datastore) (key : string) (d : Data) : Datastore :=
  {| data := <[key := d]> (data ds) |}.

(** [d.queue = q] through the pointer [d]. *)
Definition with_queue (d : Data) (q : list string) : Data :=
  {| value := value d; expiry := expiry d; isQueued := isQueued d; queue := q |}.

(** [Set] is a reserved word, hence the underscore. *)
Definition Set_ (ds : Datastore) (key value : string) (expirySeconds : Z)
    (conditional : string) (now : Time) : (string * Z) * Datastore :=
  let write :=
    let expiry :=
      if expirySeconds >? 0
      then Add now (wrap64 (expirySeconds * Second))
      else Time_zero in
    (("Enter data sucessfull", StatusOK),
     store ds key {| value := value; expiry := expiry;
                     isQueued := false; queue := [] |}) in
  match data ds !! key with
  | Some _ =>
      if String.eqb conditional "NX" then (("", StatusConflict), ds) else write
  | None =>
      if String.eqb conditional "XX" then (("", StatusNotFound), ds) else write
  end.

Definition Get (ds : Datastore) (key : string) (now : Time) : (string * Z) * Datastore :=
  match data ds !! key with
  | Some d =>
      if IsZero (expiry d) || Before now (expiry d)
      then ((value d, StatusOK), ds)
      else (("Key not exist", StatusNotFound), ds)
  | None => (("Key not exist", StatusNotFound), ds)
  end.

Definition QPush (ds : Datastore) (key : string) (values : list string)
    : (string * Z) * Datastore :=
  let push (d : Data) :=
    (("Value is pushed successfully", StatusOK),
     store ds key (with_queue d (queue d ++ values))) in
  match data ds !! key with
  | None =>
      push {| value := ""; expiry := Time_zero; isQueued := true; queue := [] |}
  | Some d =>
      if negb (isQueued d)
      then (("Key already exists", StatusConflict), ds)
      else push d
  end.

(** The test shared by [QPop] and [BQPop]:
    [data == nil || !data.isQueued || len(data.queue) == 0]. *)
Definition nothing_to_pop (o : option Data) : bool :=
  match o with
  | None => true
  | Some d => negb (isQueued d) || (length (queue d) =? 0)%nat
  end.

(** [data.queue[len(data.queue)-1]] and [data.queue[:len(data.queue)-1]]. *)
Definition tail_elem (q : list string) : string := nth (length q - 1)%nat q "".
Definition drop_tail (q : list string) : list string := take (length q - 1)%nat q.

Definition QPop (ds : Datastore) (key : string) : (string * Z) * Datastore :=
  match data ds !! key with
  | Some d =>
      if nothing_to_pop (Some d)
      then (("Q is empty so nothing can be popped!!", StatusBadRequest), ds)
      else ((tail_elem (queue d), StatusOK),
            store ds key (with_queue d (drop_tail (queue d))))
  | None => (("Q is empty so nothing can be popped!!", StatusBadRequest), ds)
  end.

(** ** Floating-point timeouts and the blocking pop *)

(** A [float64] is an IEEE 754 binary64 datum. *)
Definition float64 := spec_float.

(** The integer part of a finite float, rounded toward zero, as the
    conversion [time.Duration(f)] computes it. *)
Definition float64_trunc (f : float64) : option Z :=
  match f with
  | S754_zero _ => Some 0
  | S754_finite s m e =>
      let a := if e >=? 0 then Z.pos m * 2 ^ e else Z.pos m / 2 ^ (- e) in
      Some (if s then - a else a)
  | S754_infinity _ | S754_nan => None
  end.

Definition in_int64 (z : Z) : bool := (- 2 ^ 63 <=? z) && (z <? 2 ^ 63).

(** The poll interval of [BQPop]: [100 * time.Millisecond]. *)
Definition PollInterval : Duration := 100 * Millisecond.

(** What one call returns: payload-or-message, status, the store after the
    call and the clock when it returns. *)
Definition timed_result : Type := (string * Z) * Datastore * Time.

(** The [for] loop of [BQPop].  [now] is the clock at the start of an
    iteration; the only thing that takes time is [time.Sleep].  No other
    goroutine runs, so the store changes only by this call.  [None]: the
    loop is still running after [fuel] iterations. *)
Fixpoint BQPop_loop (fuel : nat) (ds : Datastore) (key : string)
    (expiry : Time) (now : Time) : option timed_result :=
  match fuel with
  | O => None
  | S fuel' =>
      let wait :=
        if After now expiry
        then Some (("", StatusNotFound), ds, now)
        else BQPop_loop fuel' ds key expiry (Add now PollInterval) in
      match data ds !! key with
      | Some d =>
          if nothing_to_pop (Some d) then wait
          else Some ((tail_elem (queue d), StatusOK),
                     store ds key (with_queue d (drop_tail (queue d))), now)
      | None => wait
      end
  end.

(** ** Library functions of the dispatcher *)

(** [strings.Split(s, sep)] for a one-byte separator: never empty. *)
Fixpoint Split (s : string) (sep : ascii) : list string :=
  match s with
  | EmptyString => [""]
  | String c s' =>
      if Ascii.eqb c sep then "" :: Split s' sep
      else match Split s' sep with
           | w :: ws => String c w :: ws
           | [] => [String c ""]
           end
  end.

Definition is_ascii_byte (c : ascii) : bool := (nat_of_ascii c <? 128)%nat.

Fixpoint isASCII (s : string) : bool :=
  match s with
  | EmptyString => true
  | String c s' => is_ascii_byte c && isASCII s'
  end.

Definition upper_byte (c : ascii) : ascii :=
  if Ascii.leb "a" c && Ascii.leb c "z"
  then ascii_of_nat (nat_of_ascii c - 32)
  else c.

Fixpoint upper_bytes (s : string) : string :=
  match s with
  | EmptyString => EmptyString
  | String c s' => String (upper_byte c) (upper_bytes s')
  end.

(** [strings.HasPrefix(s, prefix)] *)
Definition HasPrefix (s prefix : string) : bool := String.prefix prefix s.

(** The errors of [strconv]. *)
Inductive NumError := ErrSyntax | ErrRange.

Definition digit_of (c : ascii) : option Z :=
  if Ascii.leb "0" c && Ascii.leb c "9"
  then Some (Z.of_nat (nat_of_ascii c) - 48)
  else None.

Definition maxUint64 : Z := 2 ^ 64 - 1.

(** The digit loop of [strconv.ParseUint(s, 10, 64)]. *)
Fixpoint ParseUint_loop (s : string) (n : Z) : Z * option NumError :=
  match s with
  | EmptyString => (n, None)
  | String c s' =>
      match digit_of c with
      | None => (0, Some ErrSyntax)
      | Some d =>
          if n >=? maxUint64 / 10 + 1 then (maxUint64, Some ErrRange)
          else
            let n1 := n * 10 + d in
            if n1 >? maxUint64 then (maxUint64, Some ErrRange)
            else ParseUint_loop s' n1
      end
  end.

Definition ParseUint (s : string) : Z * option NumError :=
  match s with
  | EmptyString => (0, Some ErrSyntax)
  | _ => ParseUint_loop s 0
  end.

(** [strconv.ParseInt(s, 10, 0)] with a 64-bit [int]. *)
Definition ParseInt (s : string) : Z * option NumError :=
  match s with
  | EmptyString => (0, Some ErrSyntax)
  | String c s' =>
      let neg := Ascii.eqb c "-" in
      let digits := if Ascii.eqb c "+" || neg then s' else s in
      match ParseUint digits with
      | (_, Some ErrSyntax) => (0, Some ErrSyntax)
      | (un, _) =>
          if negb neg && (un >=? 2 ^ 63) then (2 ^ 63 - 1, Some ErrRange)
          else if neg && (un >? 2 ^ 63) then (- 2 ^ 63, Some ErrRange)
          else (if neg then - un else un, None)
      end
  end.

(** [strconv.Atoi]: its fast path for short strings computes the same
    value and error as [ParseInt]. *)
Definition Atoi (s : string) : Z * option NumError := ParseInt s.

(** ** Run-time faults *)

(** An index or a slice expression out of range panics. *)
Inductive fallible (A : Type) : Type :=
| Val (a : A)
| Fault (msg : string).
Arguments Val {A} a.
Arguments Fault {A} msg.

Definition bind {A B : Type} (m : fallible A) (k : A -> fallible B) : fallible B :=
  match m with
  | Val a => k a
  | Fault msg => Fault msg
  end.

Notation "'do' x <- m ; k" := (bind m (fun x => k))
  (at level 10, x name, m at level 100, k at level 200).

(** [args[i]] *)
Definition index (args : list string) (i : nat) : fallible string :=
  match args !! i with
  | Some a => Val a
  | None => Fault "index out of range"
  end.

(** [s[n:]] *)
Definition slice_from (s : string) (n : nat) : fallible string :=
  if (n <=? String.length s)%nat
  then Val (substring n (String.length s - n) s)
  else Fault "slice bounds out of range".

(** [args[n:]] *)
Definition args_from (args : list string) (n : nat) : fallible (list string) :=
  if (n <=? length args)%nat
  then Val (drop n args)
  else Fault "slice bounds out of range".

(** ** Validators *)

Definition ValidateSetInput (args : list string) : bool :=
  if (length args <? 2)%nat then false
  else if (5 <? length args)%nat then false
  else if (4 <=? length args)%nat
          && (negb (HasPrefix (nth 2 args "") "EX")
              || (String.length (nth 2 args "") <=? 2)%nat) then false
  else if (length args =? 5)%nat
          && (negb (String.eqb (nth 4 args "") "NX")
              && negb (String.eqb (nth 4 args "") "XX")) then false
  else true.

(** ** The result of the dispatcher *)

(** The dynamic payload: [nil], a string or a [map[string]string]. *)
Inductive payload :=
| Nil
| Str (s : string)
| Fields (m : gmap string string).

(** A call of [HandleCommand] returns a payload and a status, or panics, or
    is still polling after the iterations it was given. *)
Inductive outcome :=
| Returns (p : payload) (status : Z) (ds : Datastore)
| Panics (msg : string) (ds : Datastore)
| Polling.

(** ** Sequences of store calls *)

(** One call of a store operation; [fuel] bounds the iterations of a
    blocking pop. *)
Inductive op :=
| OpSet (key value : string) (expirySeconds : Z) (conditional : string)
| OpGet (key : string)
| OpQPush (key : string) (values : list string)
| OpQPop (key : string)
| OpBQPop (key : string) (timeoutSeconds : float64) (fuel : nat).

(** Is the call a [Set] of [key]? *)
Definition is_Set_of (key : string) (o : op) : bool :=
  match o with
  | OpSet k _ _ _ => String.eqb k key
  | _ => false
  end.

(** In a store built from the empty one, a Queue entry has the empty
    string as its value and the zero [Time] as its expiry. *)
Definition queue_entries_blank (ds : Datastore) : Prop :=
  forall key d, data ds !! key = Some d -> isQueued d = true ->
    value d = "" /\ expiry d = Time_zero.

(** The key a call works on. *)
Definition op_key (o : op) : string :=
  match o with
  | OpSet key _ _ _ => key
  | OpGet key => key
  | OpQPush key _ => key
  | OpQPop key => key
  | OpBQPop key _ _ => key
  end.

(** [n] calls of [QPop] on one key, one after the other: the results in
    the order of the calls and the store after the last. *)
Fixpoint QPop_times (n : nat) (ds : Datastore) (key : string)
    : list (string * Z) * Datastore :=
  match n with
  | O => ([], ds)
  | S n' =>
      let '(r, ds1) := QPop ds key in
      let '(rs, ds2) := QPop_times n' ds1 key in
      (r :: rs, ds2)
  end.

(** Does the byte [c] occur in [s]? *)
Fixpoint contains_byte (s : string) (c : ascii) : bool :=
  match s with
  | EmptyString => false
  | String c' s' => Ascii.eqb c' c || contains_byte s' c
  end.

(** What a call may report: OK, or one of the three failure statuses with
    the store as it was. *)
Definition ok_or_unchanged (ds : Datastore) (status : Z) (ds' : Datastore) : Prop :=
  status = StatusOK
  \/ ((status = StatusBadRequest \/ status = StatusNotFound
       \/ status = StatusConflict) /\ ds' = ds).

(** The entry that [Set] writes. *)
Definition scalar_entry (value : string) (expirySeconds : Z) (now : Time) : Data :=
  {| value := value;
     expiry := if expirySeconds >? 0
               then Add now (wrap64 (expirySeconds * Second))
               else Time_zero;
     isQueued := false; queue := [] |}.

(** ** A platform to run on *)

(** amd64: converting a float that [int64] cannot represent gives the
    "integer indefinite" value. *)
Definition amd64_int64_of_unrepresentable (f : float64) : Z := - 2 ^ 63.

(** A [ParseFloat] that rejects every input and an upper-casing that leaves
    strings with bytes outside ASCII alone; enough to run the commands
    that reach neither. *)
Definition ParseFloat_rejecting (s : string) : float64 * bool :=
  (S754_zero false, true).
Definition unicode_ToUpper_none (s : string) : string := s.

(** A [ParseFloat] for unsigned decimal integers below 2^64, which it
    rounds to binary64; it rejects every other input. *)
Definition ParseFloat_whole (s : string) : float64 * bool :=
  match ParseUint s with
  | (n, None) => (binary_normalize 53 1024 n 0 false, false)
  | _ => (S754_zero false, true)
  end.

(** ** Sample stores *)

(** "k" holds the scalar "v", written when the clock read 1000 ns with a
    TTL of 5 seconds. *)
Definition ds_expiring : Datastore := snd (Set_ NewDatastore "k" "v" 5 "" 1000).

(** "k" holds the scalar "v" with no expiry. *)
Definition ds_scalar : Datastore := snd (Set_ NewDatastore "k" "v" 0 "" 1000).

(** "q" holds the queue with the one element "a". *)
Definition ds_queue : Datastore := snd (QPush NewDatastore "q" ["a"]).

Section Platform.

(** The Go language leaves the result of converting a float to an integer
    type that cannot represent it (NaN, infinities, magnitudes of 2^63 and
    more) to the implementation. *)
Variable int64_of_unrepresentable : float64 -> Z.

(** [strconv.ParseFloat(s, 64)]: the value and whether the error is
    non-nil. *)
Variable ParseFloat : string -> float64 * bool.

(** [strings.Map(unicode.ToUpper, s)], which [strings.ToUpper] falls back to
    for a string with a byte outside ASCII. *)
Variable unicode_ToUpper : string -> string.

(** [time.Duration(f)] for [f : float64]. *)
Definition Duration_of_float64 (f : float64) : Duration :=
  match float64_trunc f with
  | Some z => if in_int64 z then z else int64_of_unrepresentable f
  | None => int64_of_unrepresentable f
  end.

(** [time.Duration(time.Second * time.Duration(timeoutSeconds))] *)
Definition BQPop_timeout (timeoutSeconds : float64) : Duration :=
  wrap64 (Second * Duration_of_float64 timeoutSeconds).

(** [time.Now().Add(timeout)] *)
Definition BQPop_deadline (timeoutSeconds : float64) (now : Time) : Time :=
  Add now (BQPop_timeout timeoutSeconds).

Definition BQPop (fuel : nat) (ds : Datastore) (key : string)
    (timeoutSeconds : float64) (now : Time) : option timed_result :=
  BQPop_loop fuel ds key (BQPop_deadline timeoutSeconds now) now.

Definition ToUpper (s : string) : string :=
  if isASCII s then upper_bytes s else unicode_ToUpper s.

Definition ValidateBQPopInput (args : list string) : bool :=
  if negb (length args =? 2)%nat then false
  else if snd (ParseFloat (nth 1 args "")) then false
  else true.

Definition ParseCommand (rawCommand : string) : fallible (string * list string) :=
  let args := Split rawCommand " " in
  do a0 <- index args 0;
  do rest <- args_from args 1;
  Val (ToUpper a0, rest).

(** The [switch] of [HandleCommand]; a fault ends it. *)
Definition dispatch (ds : Datastore) (command : string) (args : list string)
    (now : Time) (fuel : nat) : fallible outcome :=
  if String.eqb command "SET" then
    if negb (ValidateSetInput args)
    then Val (Returns (Str "Invalid Command") StatusBadRequest ds)
    else
      do key <- index args 0;
      do value <- index args 1;
      do expirySeconds <-
        (if (3 <=? length args)%nat
         then do a2 <- index args 2;
              do digits <- slice_from a2 2;
              Val (fst (Atoi digits))
         else Val 0);
      do conditional <-
        (if (length args =? 5)%nat then index args 4 else Val "");
      let '((msg, status), ds') :=
        Set_ ds key value expirySeconds conditional now in
      Val (Returns (Str msg) status ds')
  else if String.eqb command "GET" then
    if negb (length args =? 1)%nat
    then Val (Returns (Str "Invalid Command") StatusBadRequest ds)
    else
      do key <- index args 0;
      let '((value, status), ds') := Get ds key now in
      if status =? StatusOK
      then Val (Returns (Fields {[ "value" := value ]}) status ds')
      else Val (Returns (Str value) status ds')
  else if String.eqb command "QPUSH" then
    if (length args <? 2)%nat
    then Val (Returns Nil StatusBadRequest ds)
    else
      do key <- index args 0;
      do values <- args_from args 1;
      let '((msg, status), ds') := QPush ds key values in
      Val (Returns (Str msg) status ds')
  else if String.eqb command "QPOP" then
    if negb (length args =? 1)%nat
    then Val (Returns Nil StatusBadRequest ds)
    else
      do key <- index args 0;
      let '((value, status), ds') := QPop ds key in
      if status =? StatusOK
      then Val (Returns (Fields {[ "value" := value ]}) status ds')
      else Val (Returns (Fields {[ "error" := value ]}) status ds')
  else if String.eqb command "BQPOP" then
    if negb (ValidateBQPopInput args)
    then Val (Returns Nil StatusBadRequest ds)
    else
      do key <- index args 0;
      do a1 <- index args 1;
      let timeoutSeconds := fst (ParseFloat a1) in
      match BQPop fuel ds key timeoutSeconds now with
      | None => Val Polling
      | Some ((value, status), ds', _) =>
          if status =? StatusOK
          then Val (Returns (Fields {[ "value" := value ]}) status ds')
          else Val (Returns Nil status ds')
      end
  else Val (Returns (Str "Invalid Command") StatusBadRequest ds).

Definition HandleCommand (ds : Datastore) (rawCommand : string)
    (now : Time) (fuel : nat) : outcome :=
  match (do parsed <- ParseCommand rawCommand;
         dispatch ds (fst parsed) (snd parsed) now fuel) with
  | Val o => o
  | Fault msg => Panics msg ds
  end.

(** The store after a call that starts when the clock reads [now].  A
    blocking pop that is still polling has not changed the store. *)
Definition apply_op (ds : Datastore) (o : op) (now : Time) : Datastore :=
  match o with
  | OpSet key value expirySeconds conditional =>
      snd (Set_ ds key value expirySeconds conditional now)
  | OpGet key => snd (Get ds key now)
  | OpQPush key values => snd (QPush ds key values)
  | OpQPop key => snd (QPop ds key)
  | OpBQPop key timeoutSeconds fuel =>
      match BQPop fuel ds key timeoutSeconds now with
      | Some (_, ds', _) => ds'
      | None => ds
      end
  end.

(** The store after a sequence of calls, each with the clock it starts at. *)
Definition run (ds : Datastore) (calls : list (op * Time)) : Datastore :=
  fold_left (fun ds c => apply_op ds (fst c) (snd c)) calls ds.

(** Is the call a [Set] of [key] that returns OK on the store [ds]? *)
Definition ok_Set_of (key : string) (ds : Datastore) (o : op) (now : Time) : bool :=
  match o with
  | OpSet k value expirySeconds conditional =>
      String.eqb k key
      && (snd (fst (Set_ ds k value expirySeconds conditional now)) =? StatusOK)
  | _ => false
  end.

(** No call of the sequence, run from [ds], is a [Set] of [key] that
    returns OK. *)
Fixpoint no_ok_Set_of (key : string) (ds : Datastore) (calls : list (op * Time))
    : bool :=
  match calls with
  | [] => true
  | (o, now) :: calls' =>
      negb (ok_Set_of key ds o now)
      && no_ok_Set_of key (apply_op ds o now) calls'
  end.

(** The binary64 number nearest to 0.2: 7205759403792794 / 2^55. *)
Definition float64_0_2 : float64 := S754_finite false 7205759403792794 (-55).

(** The binary64 number 2.5: 5629499534213120 / 2^51. *)
Definition float64_2_5 : float64 := S754_finite false 5629499534213120 (-51).

(** ** Properties *)

(** *** Slices *)

Lemma tail_elem_snoc (l : list string) (x : string) : tail_elem (l ++ [x]) = x.
Proof.
  unfold tail_elem. rewrite length_app. simpl.
  replace (length l + 1 - 1)%nat with (length l) by lia.
  rewrite app_nth2 by lia. by rewrite Nat.sub_diag.
Qed.

Lemma drop_tail_snoc (l : list string) (x : string) : drop_tail (l ++ [x]) = l.
Proof.
  unfold drop_tail. rewrite length_app. simpl.
  replace (length l + 1 - 1)%nat with (length l) by lia.
  by rewrite take_app_length.
Qed.

Lemma nothing_to_pop_snoc (d : Data) (l : list string) (x : string) :
  isQueued d = true -> queue d = l ++ [x] -> nothing_to_pop (Some d) = false.
Proof.
  intros Hq Hl. simpl. rewrite Hq, Hl, length_app. simpl.
  apply Nat.eqb_neq. lia.
Qed.

(** *** The operations, case by case *)

Lemma QPop_snoc (ds : Datastore) (key : string) (d : Data)
    (l : list string) (x : string) :
  data ds !! key = Some d -> isQueued d = true -> queue d = l ++ [x] ->
  QPop ds key = ((x, StatusOK), store ds key (with_queue d l)).
Proof.
  intros Hd Hq Hl. unfold QPop. rewrite Hd.
  rewrite (nothing_to_pop_snoc d l x Hq Hl).
  by rewrite Hl, tail_elem_snoc, drop_tail_snoc.
Qed.

Lemma QPop_nothing (ds : Datastore) (key : string) :
  nothing_to_pop (data ds !! key) = true ->
  QPop ds key = (("Q is empty so nothing can be popped!!", StatusBadRequest), ds).
Proof.
  intros H. unfold QPop. destruct (data ds !! key) as [d|]; [|done].
  by rewrite H.
Qed.

Lemma QPush_fresh (ds : Datastore) (key : string) (values : list string) :
  data ds !! key = None ->
  QPush ds key values
  = (("Value is pushed successfully", StatusOK),
     store ds key {| value := ""; expiry := Time_zero;
                     isQueued := true; queue := values |}).
Proof. intros H. unfold QPush. by rewrite H. Qed.

Lemma QPush_queue (ds : Datastore) (key : string) (d : Data) (values : list string) :
  data ds !! key = Some d -> isQueued d = true ->
  QPush ds key values
  = (("Value is pushed successfully", StatusOK),
     store ds key (with_queue d (queue d ++ values))).
Proof. intros H Hq. unfold QPush. by rewrite H, Hq. Qed.

Lemma QPush_scalar (ds : Datastore) (key : string) (d : Data) (values : list string) :
  data ds !! key = Some d -> isQueued d = false ->
  QPush ds key values = (("Key already exists", StatusConflict), ds).
Proof. intros H Hq. unfold QPush. by rewrite H, Hq. Qed.

Lemma lookup_store_eq (ds : Datastore) (key : string) (d : Data) :
  data (store ds key d) !! key = Some d.
Proof. unfold store. simpl. apply lookup_insert_eq. Qed.

Lemma lookup_store_ne (ds : Datastore) (key key' : string) (d : Data) :
  key <> key' -> data (store ds key d) !! key' = data ds !! key'.
Proof. intros H. unfold store. simpl. by apply lookup_insert_ne. Qed.

Lemma Get_store_unchanged (ds : Datastore) (key : string) (now : Time) :
  snd (Get ds key now) = ds.
Proof.
  unfold Get. destruct (data ds !! key) as [d|]; [|done].
  by destruct (IsZero (expiry d) || Before now (expiry d)).
Qed.

Lemma Get_absent (ds : Datastore) (key : string) (now : Time) :
  data ds !! key = None ->
  Get ds key now = (("Key not exist", StatusNotFound), ds).
Proof. intros H. unfold Get. by rewrite H. Qed.

Lemma Get_expired (ds : Datastore) (key : string) (d : Data) (now : Time) :
  data ds !! key = Some d -> IsZero (expiry d) = false -> now >= expiry d ->
  Get ds key now = (("Key not exist", StatusNotFound), ds).
Proof.
  intros Hd Hz Hge. unfold Get. rewrite Hd, Hz. simpl. unfold Before.
  destruct (now <? expiry d) eqn:Hb; [|done].
  apply Z.ltb_lt in Hb. lia.
Qed.

Lemma Get_live (ds : Datastore) (key : string) (d : Data) (now : Time) :
  data ds !! key = Some d -> IsZero (expiry d) = true \/ now < expiry d ->
  Get ds key now = ((value d, StatusOK), ds).
Proof.
  intros Hd H. unfold Get. rewrite Hd.
  destruct H as [->|H]; [done|].
  unfold Before. apply Z.ltb_lt in H. rewrite H. by rewrite orb_true_r.
Qed.

Lemma Get_not_found_iff (ds : Datastore) (key : string) (now : Time) :
  snd (fst (Get ds key now)) = StatusNotFound
  <-> data ds !! key = None
      \/ exists d, data ds !! key = Some d /\ expiry d <> 0 /\ expiry d <= now.
Proof.
  unfold Get, IsZero, Before. destruct (data ds !! key) as [d|]; simpl.
  - destruct (expiry d =? 0) eqn:Hz; simpl.
    + apply Z.eqb_eq in Hz. split; [discriminate|].
      intros [?|(d' & ? & ? & ?)]; [discriminate|congruence].
    + apply Z.eqb_neq in Hz. destruct (now <? expiry d) eqn:Hb; simpl.
      * apply Z.ltb_lt in Hb. split; [discriminate|].
        intros [?|(d' & Hd' & ? & ?)]; [discriminate|].
        injection Hd' as <-. lia.
      * apply Z.ltb_ge in Hb. split; [|done]. intros _. right. by exists d.
  - split; [by left|done].
Qed.

(** *** Queues are LIFO *)

(** C4. On a key [q] that is not in the store, after [QPush(q, "a", "b")]
    the first [QPop(q)] returns "b" with status OK, the second returns "a"
    with status OK and the third fails with status BadRequest.  In general,
    on a queue whose elements are [l] followed by [x], [QPop] returns [x],
    the element pushed last, with status OK and leaves [l]. *)
Theorem QPush_QPop_LIFO (ds : Datastore) (q : string) :
  data ds !! q = None ->
  (let ds1 := snd (QPush ds q ["a"; "b"]) in
   let r1 := QPop ds1 q in
   let r2 := QPop (snd r1) q in
   let r3 := QPop (snd r2) q in
   fst (QPush ds q ["a"; "b"]) = ("Value is pushed successfully", StatusOK)
   /\ fst r1 = ("b", StatusOK)
   /\ fst r2 = ("a", StatusOK)
   /\ snd (fst r3) = StatusBadRequest)
  /\ (forall (ds' : Datastore) (key : string) (d : Data) (l : list string) (x : string),
        data ds' !! key = Some d -> isQueued d = true -> queue d = l ++ [x] ->
        QPop ds' key = ((x, StatusOK), store ds' key (with_queue d l)))
  /\ (forall (ds' : Datastore) (key : string) (values : list string) (x : string),
        snd (fst (QPush ds' key (values ++ [x]))) = StatusOK ->
        fst (QPop (snd (QPush ds' key (values ++ [x]))) key) = (x, StatusOK)).
Proof.
  intros Hfresh. split; [|split].
  - cbv zeta. rewrite (QPush_fresh ds q _ Hfresh). simpl.
    rewrite (QPop_snoc _ q _ ["a"] "b" (lookup_store_eq _ _ _)) by done.
    simpl.
    rewrite (QPop_snoc _ q _ [] "a" (lookup_store_eq _ _ _)) by done.
    simpl. rewrite QPop_nothing; [done|]. by rewrite lookup_store_eq.
  - intros ds' key d l x. apply QPop_snoc.
  - intros ds' key values x. unfold QPush at 1 2.
    destruct (data ds' !! key) as [d|] eqn:Hd.
    + destruct (isQueued d) eqn:Hq; simpl; [|discriminate]. intros _.
      erewrite (QPop_snoc _ key _ (queue d ++ values) x); [done| | |].
      * apply lookup_store_eq.
      * done.
      * simpl. by rewrite app_assoc.
    + simpl. intros _.
      erewrite (QPop_snoc _ key _ values x); [done| | |];
        [apply lookup_store_eq|done|done].
Qed.

(** *** Conditional writes *)

(** C5. [Set] with conditional NX on a key that exists returns Conflict,
    and [Set] with conditional XX on a key that is absent returns NotFound;
    in both cases the store after the call is the store before it. *)
Theorem Set_conditional_failure_no_mutation (ds : Datastore) (key value : string)
    (expirySeconds : Z) (now : Time) :
  (is_Some (data ds !! key) ->
   Set_ ds key value expirySeconds "NX" now = (("", StatusConflict), ds))
  /\ (data ds !! key = None ->
      Set_ ds key value expirySeconds "XX" now = (("", StatusNotFound), ds)).
Proof.
  split.
  - intros [d Hd]. unfold Set_. by rewrite Hd.
  - intros Hd. unfold Set_. by rewrite Hd.
Qed.

(** *** Lazy expiry *)

(** C6. [Get] on a key that is absent, or whose entry has an expiry set
    with [now >= expiry], returns NotFound, and the store after the call is
    the store before it: the expired entry is still there, unchanged. *)
Theorem Get_expired_or_absent_not_found (ds : Datastore) (key : string) (now : Time) :
  data ds !! key = None
  \/ (exists d, data ds !! key = Some d /\ IsZero (expiry d) = false /\ now >= expiry d) ->
  Get ds key now = (("Key not exist", StatusNotFound), ds)
  /\ data (snd (Get ds key now)) !! key = data ds !! key.
Proof.
  intros H. assert (Get ds key now = (("Key not exist", StatusNotFound), ds)) as E.
  { destruct H as [H|(d & Hd & Hz & Hge)];
      [by apply Get_absent|by apply (Get_expired ds key d)]. }
  by rewrite E.
Qed.

(** *** Empty queues stay *)

(** C8. When a key holds a Queue-kind entry with one element, [QPop]
    returns that element and does not delete the key: afterwards the key
    maps to the same entry, still Queue-kind, with zero elements, which is
    not the state of an absent key. *)
Theorem QPop_last_element_keeps_key (ds : Datastore) (key : string) (d : Data)
    (x : string) :
  data ds !! key = Some d -> isQueued d = true -> queue d = [x] ->
  fst (QPop ds key) = (x, StatusOK)
  /\ data (snd (QPop ds key)) !! key = Some (with_queue d [])
  /\ isQueued (with_queue d []) = true
  /\ queue (with_queue d []) = []
  /\ data (snd (QPop ds key)) !! key <> None.
Proof.
  intros Hd Hq Hl.
  rewrite (QPop_snoc ds key d [] x Hd Hq Hl). simpl.
  rewrite lookup_insert_eq. by rewrite Hq.
Qed.

(** *** Conditional writes do not look at the expiry *)

(** C10. On a key whose entry has expired, so that [Get] returns NotFound,
    [Set] with conditional NX still returns Conflict and leaves the store as
    it was, and [Set] with conditional XX still succeeds and overwrites the
    entry. *)
Theorem Set_conditional_ignores_expiry (ds : Datastore) (key value : string)
    (expirySeconds : Z) (now : Time) (d : Data) :
  data ds !! key = Some d -> IsZero (expiry d) = false -> now >= expiry d ->
  fst (Get ds key now) = ("Key not exist", StatusNotFound)
  /\ Set_ ds key value expirySeconds "NX" now = (("", StatusConflict), ds)
  /\ fst (Set_ ds key value expirySeconds "XX" now)
     = ("Enter data sucessfull", StatusOK)
  /\ data (snd (Set_ ds key value expirySeconds "XX" now)) !! key
     = Some {| value := value;
               expiry := if expirySeconds >? 0
                         then now + wrap64 (expirySeconds * Second) else 0;
               isQueued := false; queue := [] |}.
Proof.
  intros Hd Hz Hge. split; [|split; [|split]].
  - by rewrite (Get_expired ds key d now).
  - unfold Set_. by rewrite Hd.
  - unfold Set_. by rewrite Hd.
  - unfold Set_. rewrite Hd. simpl. by rewrite lookup_insert_eq.
Qed.

(** *** The blocking pop *)

Lemma BQPop_loop_nothing (fuel : nat) (ds : Datastore) (key : string)
    (expiry now : Time) :
  nothing_to_pop (data ds !! key) = true ->
  BQPop_loop (S fuel) ds key expiry now
  = if After now expiry
    then Some (("", StatusNotFound), ds, now)
    else BQPop_loop fuel ds key expiry (Add now PollInterval).
Proof.
  intros H. simpl. destruct (data ds !! key) as [d|]; [|done].
  simpl in H. by rewrite H.
Qed.

Lemma BQPop_loop_something (fuel : nat) (ds : Datastore) (key : string)
    (expiry now : Time) (d : Data) :
  data ds !! key = Some d -> nothing_to_pop (Some d) = false ->
  BQPop_loop (S fuel) ds key expiry now
  = Some ((tail_elem (queue d), StatusOK),
          store ds key (with_queue d (drop_tail (queue d))), now).
Proof. intros Hd H. simpl. rewrite Hd. simpl in H. by rewrite H. Qed.

(** What a blocking pop that returns has done: nothing and NotFound, or
    what [QPop] does. *)
Lemma BQPop_loop_result (fuel : nat) (ds : Datastore) (key : string)
    (expiry now : Time) (r : string * Z) (ds' : Datastore) (t : Time) :
  BQPop_loop fuel ds key expiry now = Some (r, ds', t) ->
  (nothing_to_pop (data ds !! key) = true /\ r = ("", StatusNotFound)
   /\ ds' = ds /\ After t expiry = true)
  \/ (nothing_to_pop (data ds !! key) = false /\ (r, ds') = QPop ds key /\ t = now).
Proof.
  revert now. induction fuel as [|fuel IH]; intros now; [done|].
  destruct (nothing_to_pop (data ds !! key)) eqn:Hn.
  - rewrite BQPop_loop_nothing by done.
    destruct (After now expiry) eqn:Ha.
    + intros [= <- <- <-]. by left.
    + intros H. destruct (IH _ H) as [?|[? _]]; [by left|done].
  - destruct (data ds !! key) as [d|] eqn:Hd; [|done].
    rewrite (BQPop_loop_something fuel ds key expiry now d Hd Hn).
    intros [= <- <- <-]. right. split; [done|]. split; [|done].
    unfold QPop. by rewrite Hd, Hn.
Qed.

(** The loop ends: on a store nobody else writes to, enough iterations
    give a result. *)
Lemma BQPop_loop_terminates (ds : Datastore) (key : string) (expiry now : Time) :
  exists fuel, is_Some (BQPop_loop fuel ds key expiry now).
Proof.
  destruct (nothing_to_pop (data ds !! key)) eqn:Hn.
  - assert (forall n now', expiry - now' < Z.of_nat n * PollInterval ->
              is_Some (BQPop_loop (S n) ds key expiry now')) as H.
    { induction n as [|n IH]; intros now' Hlt;
        rewrite BQPop_loop_nothing by done; unfold After.
      - destruct (now' >? expiry) eqn:Ha; [done|].
        rewrite Z.gtb_ltb in Ha. apply Z.ltb_ge in Ha. unfold PollInterval, Millisecond in *. lia.
      - destruct (now' >? expiry) eqn:Ha; [done|].
        apply IH. unfold Add, PollInterval, Millisecond in *. lia. }
    exists (S (Z.to_nat (expiry - now + 1))). apply H.
    unfold PollInterval, Millisecond. lia.
  - destruct (data ds !! key) as [d|] eqn:Hd; [|done].
    exists 1%nat. by rewrite (BQPop_loop_something _ ds key expiry now d Hd Hn).
Qed.

(** A finite non-negative timeout below one second is a timeout of zero. *)
Lemma BQPop_timeout_below_one_second (m : positive) (e : Z) :
  e < 0 -> Z.pos m < 2 ^ (- e) ->
  BQPop_timeout (S754_finite false m e) = 0.
Proof.
  intros He Hm. unfold BQPop_timeout, Duration_of_float64, float64_trunc.
  destruct (e >=? 0) eqn:Hge; [apply Z.geb_le in Hge; lia|].
  rewrite Z.div_small by lia. done.
Qed.

(** C2, at the timeout 0.2.  The conversion [time.Duration(timeoutSeconds)]
    drops the fraction before the multiplication by [time.Second]: the
    deadline of [BQPop(key, 0.2)] is [now], not [now] plus 0.2 seconds, and
    on a key with nothing to pop the call returns NotFound when the clock
    reads [now] plus one poll interval of 0.1 seconds, before 0.2 seconds
    have passed. *)
Theorem BQPop_0_2_deadline_truncated (ds : Datastore) (key : string)
    (now : Time) (fuel : nat) :
  nothing_to_pop (data ds !! key) = true ->
  BQPop_deadline float64_0_2 now = now
  /\ BQPop (S (S fuel)) ds key float64_0_2 now
     = Some (("", StatusNotFound), ds, now + 100 * Millisecond)
  /\ now + 100 * Millisecond < now + 200 * Millisecond.
Proof.
  intros Hn.
  assert (BQPop_deadline float64_0_2 now = now) as Hd.
  { unfold BQPop_deadline, Add, float64_0_2.
    rewrite BQPop_timeout_below_one_second by done. lia. }
  split; [done|]. split; [|unfold Millisecond; lia].
  unfold BQPop. rewrite Hd. rewrite !BQPop_loop_nothing by done.
  unfold After, Add, PollInterval, Millisecond.
  destruct (now >? now) eqn:H1; [rewrite Z.gtb_ltb in H1; apply Z.ltb_lt in H1; lia|].
  destruct (now + 100 * 1000000 >? now) eqn:H2; [done|].
  rewrite Z.gtb_ltb in H2. apply Z.ltb_ge in H2. lia.
Qed.

(** *** What one call does to the store *)

(** A call leaves the store as it is, or writes one entry: a new Scalar
    entry (only [Set] does), an existing Queue entry with another queue, or
    a new Queue entry. *)
Lemma apply_op_cases (ds : Datastore) (o : op) (now : Time) :
  apply_op ds o now = ds
  \/ (exists key v e, is_Set_of key o = true
        /\ apply_op ds o now
           = store ds key {| value := v; expiry := e; isQueued := false; queue := [] |})
  \/ (exists key d q, data ds !! key = Some d /\ isQueued d = true
        /\ apply_op ds o now = store ds key (with_queue d q))
  \/ (exists key q, data ds !! key = None
        /\ apply_op ds o now
           = store ds key {| value := ""; expiry := Time_zero;
                             isQueued := true; queue := q |}).
Proof.
  assert (forall key, QPop ds key = (fst (QPop ds key), ds)
            \/ exists d q, data ds !! key = Some d /\ isQueued d = true
                 /\ snd (QPop ds key) = store ds key (with_queue d q)) as HQPop.
  { intros key. unfold QPop. destruct (data ds !! key) as [d|]; [|by left].
    simpl. destruct (isQueued d) eqn:Hq; simpl; [|by left].
    destruct (length (queue d) =? 0)%nat; [by left|]. right.
    by exists d, (drop_tail (queue d)). }
  destruct o as [key v e c|key|key values|key|key timeoutSeconds fuel]; simpl.
  - unfold Set_.
    destruct (data ds !! key), (String.eqb c _); simpl; try by left.
    all: right; left; eexists key, v, _; by rewrite String.eqb_refl.
  - left. apply Get_store_unchanged.
  - unfold QPush. destruct (data ds !! key) as [d|] eqn:Hd.
    + destruct (isQueued d) eqn:Hq; simpl; [|by left].
      right; right; left. by eexists key, d, _.
    + right; right; right. by eexists key, _.
  - destruct (HQPop key) as [->|(d & q & ? & ? & ->)]; [by left|].
    right; right; left. by exists key, d, q.
  - unfold BQPop.
    destruct (BQPop_loop _ _ _ _ _) as [[[r ds'] t]|] eqn:E; [|by left].
    apply BQPop_loop_result in E as [(_ & _ & -> & _)|(_ & E & _)]; [by left|].
    destruct (HQPop key) as [H|(d & q & ? & ? & H)]; rewrite <- E in H; simpl in H.
    + left. congruence.
    + right; right; left. by exists key, d, q.
Qed.

Lemma apply_op_queue_entries_blank (ds : Datastore) (o : op) (now : Time) :
  queue_entries_blank ds -> queue_entries_blank (apply_op ds o now).
Proof.
  intros Hinv key d.
  destruct (apply_op_cases ds o now)
    as [->|[(k & v & e & _ & ->)|[(k & d0 & q & Hd0 & Hq0 & ->)|(k & q & _ & ->)]]];
    [apply Hinv| | |].
  all: destruct (decide (k = key)) as [->|Hne];
    [rewrite lookup_store_eq|rewrite lookup_store_ne by done; apply Hinv].
  - intros [= <-]. done.
  - intros [= <-] _. simpl. by apply (Hinv key).
  - intros [= <-]. done.
Qed.

Lemma run_queue_entries_blank (calls : list (op * Time)) (ds : Datastore) :
  queue_entries_blank ds -> queue_entries_blank (run ds calls).
Proof.
  revert ds. induction calls as [|[o now] calls IH]; intros ds Hinv; [done|].
  simpl. apply IH. by apply apply_op_queue_entries_blank.
Qed.

Lemma Get_blank (ds : Datastore) (key : string) (d : Data) (now : Time) :
  data ds !! key = Some d -> value d = "" -> expiry d = Time_zero ->
  Get ds key now = (("", StatusOK), ds).
Proof. intros Hd Hv He. unfold Get. by rewrite Hd, He, Hv. Qed.

(** C9. [Get] on a key created by [QPush] returns the empty string with
    status OK: right after the [QPush] that created the key, and for every
    Queue-kind entry of every store that a sequence of calls builds from
    the empty store, at every reading of the clock. *)
Theorem Get_on_queue_key_returns_empty (ds : Datastore) (key : string)
    (values : list string) (calls : list (op * Time)) (d : Data) (now : Time) :
  (data ds !! key = None ->
   Get (snd (QPush ds key values)) key now
   = (("", StatusOK), snd (QPush ds key values)))
  /\ (data (run NewDatastore calls) !! key = Some d -> isQueued d = true ->
      Get (run NewDatastore calls) key now
      = (("", StatusOK), run NewDatastore calls)).
Proof.
  split.
  - intros Hfresh. rewrite (QPush_fresh ds key values Hfresh). simpl.
    by apply (Get_blank _ key _ now (lookup_store_eq _ _ _)).
  - intros Hd Hq.
    destruct (run_queue_entries_blank calls NewDatastore) with key d
      as [Hv He]; [done|done|done|].
    by apply (Get_blank _ key d).
Qed.

(** *** The kind of an entry *)

Lemma apply_op_kind (ds : Datastore) (o : op) (now : Time) (key : string) (d : Data) :
  data ds !! key = Some d -> is_Set_of key o = false ->
  exists d', data (apply_op ds o now) !! key = Some d' /\ isQueued d' = isQueued d.
Proof.
  intros Hd Hset.
  destruct (apply_op_cases ds o now)
    as [->|[(k & v & e & Hk & ->)|[(k & d0 & q & Hd0 & Hq0 & ->)|(k & q & Hk & ->)]]];
    [by exists d| | |].
  all: destruct (decide (k = key)) as [->|Hne];
    [|rewrite lookup_store_ne by done; by exists d].
  - congruence.
  - rewrite lookup_store_eq. exists (with_queue d0 q). split; [done|]. simpl. congruence.
  - congruence.
Qed.

Lemma run_kind (calls : list (op * Time)) (ds : Datastore) (key : string) (d : Data) :
  data ds !! key = Some d ->
  Forall (fun c => is_Set_of key (fst c) = false) calls ->
  exists d', data (run ds calls) !! key = Some d' /\ isQueued d' = isQueued d.
Proof.
  revert ds d. induction calls as [|[o now] calls IH]; intros ds d Hd Hall.
  - by exists d.
  - apply Forall_cons in Hall as [Ho Hall]. simpl in Ho. simpl.
    destruct (apply_op_kind ds o now key d Hd Ho) as (d1 & Hd1 & Hk1).
    destruct (IH _ d1 Hd1 Hall) as (d' & Hd' & Hk').
    exists d'. split; [done|congruence].
Qed.

Lemma apply_op_scalar_stays (ds : Datastore) (o : op) (now : Time)
    (key : string) (d : Data) :
  data ds !! key = Some d -> isQueued d = false ->
  exists d', data (apply_op ds o now) !! key = Some d' /\ isQueued d' = false.
Proof.
  intros Hd Hq.
  destruct (apply_op_cases ds o now)
    as [->|[(k & v & e & Hk & ->)|[(k & d0 & q & Hd0 & Hq0 & ->)|(k & q & Hk & ->)]]];
    [by exists d| | |].
  all: destruct (decide (k = key)) as [->|Hne];
    [|rewrite lookup_store_ne by done; by exists d].
  - rewrite lookup_store_eq. by eexists.
  - congruence.
  - congruence.
Qed.

Lemma run_scalar_stays (calls : list (op * Time)) (ds : Datastore)
    (key : string) (d : Data) :
  data ds !! key = Some d -> isQueued d = false ->
  exists d', data (run ds calls) !! key = Some d' /\ isQueued d' = false.
Proof.
  revert ds d. induction calls as [|[o now] calls IH]; intros ds d Hd Hq.
  - by exists d.
  - simpl. destruct (apply_op_scalar_stays ds o now key d Hd Hq) as (d1 & Hd1 & Hq1).
    by apply (IH _ d1).
Qed.

Lemma apply_op_kind_no_ok_Set (ds : Datastore) (o : op) (now : Time)
    (key : string) (d : Data) :
  data ds !! key = Some d -> ok_Set_of key ds o now = false ->
  exists d', data (apply_op ds o now) !! key = Some d' /\ isQueued d' = isQueued d.
Proof.
  intros Hd Hok. destruct (is_Set_of key o) eqn:Hset;
    [|by apply apply_op_kind].
  destruct o as [k v e c| | | |]; try discriminate. simpl in *.
  rewrite Hset in Hok. simpl in Hok. apply Z.eqb_neq in Hok.
  apply String.eqb_eq in Hset as ->. revert Hok. unfold Set_. rewrite Hd.
  destruct (String.eqb c "NX"); simpl; [|done]. intros _. by exists d.
Qed.

Lemma run_kind_no_ok_Set (calls : list (op * Time)) (ds : Datastore)
    (key : string) (d : Data) :
  data ds !! key = Some d -> no_ok_Set_of key ds calls = true ->
  exists d', data (run ds calls) !! key = Some d' /\ isQueued d' = isQueued d.
Proof.
  revert ds d. induction calls as [|[o now] calls IH]; intros ds d Hd Hall.
  - by exists d.
  - simpl in Hall. apply andb_true_iff in Hall as [Ho Hall].
    apply negb_true_iff in Ho. simpl.
    destruct (apply_op_kind_no_ok_Set ds o now key d Hd Ho) as (d1 & Hd1 & Hk1).
    destruct (IH _ d1 Hd1 Hall) as (d' & Hd' & Hk').
    exists d'. split; [done|congruence].
Qed.

(** C3, as the code has it.  [QPush] on a Scalar-kind key fails with
    Conflict and leaves the store as it was.  A Scalar-kind entry keeps its
    kind under every sequence of calls, [Set] of its key included.  A
    Queue-kind entry keeps its kind under every sequence of calls in which
    no [Set] of its key returns OK.  [Set] does not look at the kind: on a
    Queue-kind key, [Set] with conditional NX fails with Conflict and leaves
    the store as it was, and [Set] with any other conditional succeeds and
    replaces the entry by a Scalar-kind one. *)
Theorem kind_changes_only_by_Set (ds : Datastore) (key : string) (d : Data) :
  data ds !! key = Some d ->
  (isQueued d = false ->
   forall values, QPush ds key values = (("Key already exists", StatusConflict), ds))
  /\ (isQueued d = false ->
      forall calls,
        exists d', data (run ds calls) !! key = Some d' /\ isQueued d' = false)
  /\ (forall calls, no_ok_Set_of key ds calls = true ->
      exists d', data (run ds calls) !! key = Some d' /\ isQueued d' = isQueued d)
  /\ (isQueued d = true ->
      forall value expirySeconds conditional now,
        Set_ ds key value expirySeconds conditional now
        = if String.eqb conditional "NX"
          then (("", StatusConflict), ds)
          else (("Enter data sucessfull", StatusOK),
                store ds key
                  {| value := value;
                     expiry := if expirySeconds >? 0
                               then now + wrap64 (expirySeconds * Second) else 0;
                     isQueued := false; queue := [] |})).
Proof.
  intros Hd. split; [|split; [|split]].
  - intros Hq values. by apply (QPush_scalar ds key d).
  - intros Hq calls. by apply (run_scalar_stays calls ds key d).
  - intros calls. by apply run_kind_no_ok_Set.
  - intros _ value expirySeconds conditional now. unfold Set_. by rewrite Hd.
Qed.

(** *** The dispatcher *)

Lemma Split_not_nil (s : string) (sep : ascii) : Split s sep <> [].
Proof.
  destruct s as [|c s]; simpl; [done|].
  destruct (Ascii.eqb c sep); [done|]. by destruct (Split s sep).
Qed.

(** Parsing never faults: [Split] gives at least one token. *)
Lemma ParseCommand_total (rawCommand : string) :
  exists command args, ParseCommand rawCommand = Val (command, args).
Proof.
  unfold ParseCommand.
  destruct (Split rawCommand " ") as [|a0 rest] eqn:E;
    [by apply Split_not_nil in E|].
  simpl. rewrite drop_0. by eexists _, _.
Qed.

Lemma slice_from_fault_iff (s : string) (n : nat) :
  (exists msg, slice_from s n = Fault msg) <-> (String.length s < n)%nat.
Proof.
  unfold slice_from. destruct (n <=? String.length s)%nat eqn:E.
  - apply Nat.leb_le in E. split; [intros [? [=]]|lia].
  - apply Nat.leb_gt in E. split; [done|]. intros _. by eexists.
Qed.

Ltac split_results :=
  repeat match goal with
    | |- context [let '(_, _) := ?r in _] => destruct r as [[? ?] ?]
    | |- context [if ?b then _ else _] => destruct b
    end.

(** The only fault of the dispatcher: a [SET] with three arguments whose
    third has fewer than two bytes, at the slice [args[2][2:]]. *)
Lemma dispatch_fault_iff (ds : Datastore) (command : string) (args : list string)
    (now : Time) (fuel : nat) :
  (exists msg, dispatch ds command args now fuel = Fault msg)
  <-> command = "SET"
      /\ exists key value suffix,
           args = [key; value; suffix] /\ (String.length suffix < 2)%nat.
Proof.
  unfold dispatch.
  destruct (String.eqb_spec command "SET") as [->|HSET].
  { destruct args as [|a0 [|a1 [|a2 [|a3 [|a4 [|a5 rest]]]]]]; simpl.
    1,2,7: split; [intros [? [=]]|intros [_ (? & ? & ? & [=] & _)]].
    - split; [|intros [_ (? & ? & ? & [=] & _)]].
      destruct (Set_ ds a0 a1 0 "" now) as [[? ?] ?]. intros [? [=]].
    - split.
      + intros [msg H]. split; [done|]. exists a0, a1, a2. split; [done|].
        apply slice_from_fault_iff.
        destruct (slice_from a2 2); [|by eexists]. simpl in H.
        destruct (Set_ _ _ _ _ _ _) as [[? ?] ?]. done.
      + intros [_ (? & ? & ? & [= <- <- <-] & Hlen)].
        apply slice_from_fault_iff in Hlen as [msg ->]. by eexists.
    - split; [|intros [_ (? & ? & ? & [=] & _)]].
      unfold ValidateSetInput. simpl.
      destruct (HasPrefix a2 "EX"); simpl; [|intros [? [=]]].
      destruct (String.length a2 <=? 2)%nat eqn:E; simpl; [intros [? [=]]|].
      apply Nat.leb_gt in E. unfold slice_from.
      destruct (2 <=? String.length a2)%nat eqn:E2; [|apply Nat.leb_gt in E2; lia].
      simpl. destruct (Set_ _ _ _ _ _ _) as [[? ?] ?]. intros [? [=]].
    - split; [|intros [_ (? & ? & ? & [=] & _)]].
      unfold ValidateSetInput. simpl.
      destruct (HasPrefix a2 "EX"); simpl; [|intros [? [=]]].
      destruct (String.length a2 <=? 2)%nat eqn:E; simpl; [intros [? [=]]|].
      apply Nat.leb_gt in E. unfold slice_from.
      destruct (2 <=? String.length a2)%nat eqn:E2; [|apply Nat.leb_gt in E2; lia].
      destruct (negb (a4 =? "NX")%string && negb (a4 =? "XX")%string);
        simpl; [intros [? [=]]|].
      destruct (Set_ _ _ _ _ _ _) as [[? ?] ?]. intros [? [=]]. }
  split; [|by intros [-> _]]. intros [msg H]. exfalso. revert H.
  destruct (String.eqb command "SET") eqn:E;
    [by apply String.eqb_eq in E|clear E].
  destruct (String.eqb command "GET").
  { destruct args as [|a0 [|a1 rest]]; simpl; split_results; done. }
  destruct (String.eqb command "QPUSH").
  { destruct args as [|a0 [|a1 rest]]; simpl; split_results; done. }
  destruct (String.eqb command "QPOP").
  { destruct args as [|a0 [|a1 rest]]; simpl; split_results; done. }
  destruct (String.eqb command "BQPOP"); [|done].
  unfold ValidateBQPopInput.
  destruct args as [|a0 [|a1 [|a2 rest]]]; simpl; try done.
  destruct (snd (ParseFloat a1)); simpl; [done|].
  destruct (BQPop _ _ _ _ _) as [[[[? ?] ?] ?]|]; split_results; done.
Qed.

(** [HandleCommand] panics exactly on the commands that reach that slice,
    and then the store is as it was. *)
Lemma HandleCommand_panics_iff (ds : Datastore) (rawCommand : string)
    (now : Time) (fuel : nat) :
  (exists msg ds', HandleCommand ds rawCommand now fuel = Panics msg ds')
  <-> exists key value suffix,
        ParseCommand rawCommand = Val ("SET", [key; value; suffix])
        /\ (String.length suffix < 2)%nat.
Proof.
  unfold HandleCommand.
  destruct (ParseCommand_total rawCommand) as (command & args & ->). simpl.
  pose proof (dispatch_fault_iff ds command args now fuel) as Hiff.
  assert (forall msg ds', dispatch ds command args now fuel <> Val (Panics msg ds'))
    as Hval.
  { intros msg ds'. unfold dispatch, ValidateBQPopInput.
    destruct (String.eqb command "SET").
    { destruct (negb (ValidateSetInput args)); [done|].
      destruct args as [|a0 [|a1 [|a2 [|a3 [|a4 [|a5 rest]]]]]]; simpl;
        unfold slice_from; split_results; simpl; split_results; done. }
    destruct (String.eqb command "GET").
    { destruct args as [|a0 [|a1 rest]]; simpl; split_results; done. }
    destruct (String.eqb command "QPUSH").
    { destruct args as [|a0 [|a1 rest]]; simpl; split_results; done. }
    destruct (String.eqb command "QPOP").
    { destruct args as [|a0 [|a1 rest]]; simpl; split_results; done. }
    destruct (String.eqb command "BQPOP"); [|done].
    destruct args as [|a0 [|a1 [|a2 rest]]]; simpl; try done.
    destruct (snd (ParseFloat a1)); simpl; [done|].
    destruct (BQPop _ _ _ _ _) as [[[[? ?] ?] ?]|]; split_results; done. }
  split.
  - intros (msg & ds' & H). specialize (Hval msg ds').
    destruct (dispatch ds command args now fuel) as [o|msg'] eqn:E.
    + congruence.
    + destruct Hiff as [Hiff _].
      destruct Hiff as [-> (key & v & e & -> & Hlen)]; [by eexists|].
      by exists key, v, e.
  - intros (key & v & e & [= -> ->] & Hlen).
    destruct Hiff as [_ [msg ->]]; [split; [done|by exists key, v, e]|].
    by exists msg, ds.
Qed.

(** C1, at the command [SET k v E].  The validator looks at the third
    argument only when there are four arguments or more, so this command
    passes validation, and the slice [args[2][2:]] of the one-byte string
    "E" is out of range: [HandleCommand] panics instead of returning a
    payload and a status.  The store is not touched. *)
Theorem HandleCommand_SET_short_suffix_panics (ds : Datastore) (now : Time)
    (fuel : nat) :
  ValidateSetInput ["k"; "v"; "E"] = true
  /\ HandleCommand ds "SET k v E" now fuel = Panics "slice bounds out of range" ds.
Proof. split; reflexivity. Qed.

Lemma dispatch_GET (ds : Datastore) (key : string) (now : Time) (fuel : nat) :
  dispatch ds "GET" [key] now fuel
  = let '((value, status), ds') := Get ds key now in
    if status =? StatusOK
    then Val (Returns (Fields {[ "value" := value ]}) status ds')
    else Val (Returns (Str value) status ds').
Proof. reflexivity. Qed.

Lemma dispatch_QPOP (ds : Datastore) (key : string) (now : Time) (fuel : nat) :
  dispatch ds "QPOP" [key] now fuel
  = let '((value, status), ds') := QPop ds key in
    if status =? StatusOK
    then Val (Returns (Fields {[ "value" := value ]}) status ds')
    else Val (Returns (Fields {[ "error" := value ]}) status ds').
Proof. reflexivity. Qed.

Lemma QPop_status (ds : Datastore) (key : string) :
  snd (fst (QPop ds key)) = StatusOK \/ snd (fst (QPop ds key)) = StatusBadRequest.
Proof.
  unfold QPop. destruct (data ds !! key) as [d|]; [|by right].
  destruct (nothing_to_pop (Some d)); [by right|by left].
Qed.

(** C7. For a [GET] command with one argument, a [Get] that succeeds is
    returned as the mapping from "value" to the value and a [Get] that fails
    is returned as the plain message with its status.  For a [QPOP] command
    with one argument, a [QPop] that succeeds is returned as the mapping
    from "value" to the element and a [QPop] that fails is returned as the
    mapping from "error" to the message, with status BadRequest. *)
Theorem HandleCommand_GET_QPOP_wrapping (ds : Datastore) (rawCommand key : string)
    (now : Time) (fuel : nat) :
  (ParseCommand rawCommand = Val ("GET", [key]) ->
   forall v status ds', Get ds key now = ((v, status), ds') ->
     (status = StatusOK ->
      HandleCommand ds rawCommand now fuel
      = Returns (Fields {[ "value" := v ]}) StatusOK ds')
     /\ (status <> StatusOK ->
         HandleCommand ds rawCommand now fuel = Returns (Str v) status ds'))
  /\ (ParseCommand rawCommand = Val ("QPOP", [key]) ->
      forall v status ds', QPop ds key = ((v, status), ds') ->
        (status = StatusOK ->
         HandleCommand ds rawCommand now fuel
         = Returns (Fields {[ "value" := v ]}) StatusOK ds')
        /\ (status <> StatusOK ->
            status = StatusBadRequest
            /\ HandleCommand ds rawCommand now fuel
               = Returns (Fields {[ "error" := v ]}) StatusBadRequest ds')).
Proof.
  split; intros Hparse v status ds' Hcall; unfold HandleCommand, bind;
    rewrite Hparse; cbn [fst snd];
    [rewrite dispatch_GET|rewrite dispatch_QPOP]; rewrite Hcall.
  - split.
    + by intros ->.
    + intros Hne. apply Z.eqb_neq in Hne. by rewrite Hne.
  - split.
    + by intros ->.
    + intros Hne.
      assert (status = StatusBadRequest) as ->; [|done].
      destruct (QPop_status ds key) as [H|H]; rewrite Hcall in H; simpl in H; done.
Qed.

(** ** Further properties of the store *)

Lemma wrap64_in_range (z : Z) : - 2 ^ 63 <= z < 2 ^ 63 -> wrap64 z = z.
Proof. intros H. unfold wrap64. rewrite Z.mod_small; lia. Qed.

Lemma store_store (ds : Datastore) (key : string) (d1 d2 : Data) :
  store (store ds key d1) key d2 = store ds key d2.
Proof. unfold store. simpl. by rewrite insert_insert_eq. Qed.

Lemma Set_written (ds : Datastore) (key value : string) (expirySeconds : Z)
    (conditional : string) (now : Time) :
  snd (fst (Set_ ds key value expirySeconds conditional now)) = StatusOK ->
  Set_ ds key value expirySeconds conditional now
  = (("Enter data sucessfull", StatusOK),
     store ds key
       {| value := value;
          expiry := if expirySeconds >? 0
                    then now + wrap64 (expirySeconds * Second) else 0;
          isQueued := false; queue := [] |}).
Proof.
  unfold Set_.
  destruct (data ds !! key), (String.eqb conditional _); simpl;
    done || discriminate.
Qed.

(** A value written without a TTL is read back at every later reading of
    the clock: after a [Set] with [expirySeconds <= 0] that returned OK,
    [Get] on the key returns the value with status OK. *)
Theorem Set_Get_without_ttl (ds : Datastore) (key value : string)
    (expirySeconds : Z) (conditional : string) (now now' : Time) :
  snd (fst (Set_ ds key value expirySeconds conditional now)) = StatusOK ->
  expirySeconds <= 0 ->
  fst (Get (snd (Set_ ds key value expirySeconds conditional now)) key now')
  = (value, StatusOK).
Proof.
  intros Hok Hle. rewrite (Set_written _ _ _ _ _ _ Hok). simpl.
  destruct (expirySeconds >? 0) eqn:E; [rewrite Z.gtb_ltb in E; apply Z.ltb_lt in E; lia|].
  by rewrite (Get_live _ key _ now' (lookup_store_eq _ _ _)) by (by left).
Qed.

(** A value written with a TTL of [expirySeconds] whole seconds, when the
    product with a second fits 64 bits, is read back exactly while the clock
    is before the time of the write plus the TTL, and is NotFound from
    then on. *)
Theorem Set_Get_within_ttl (ds : Datastore) (key value : string)
    (expirySeconds : Z) (conditional : string) (now now' : Time) :
  snd (fst (Set_ ds key value expirySeconds conditional now)) = StatusOK ->
  0 <= now -> 0 < expirySeconds -> expirySeconds * Second < 2 ^ 63 ->
  fst (Get (snd (Set_ ds key value expirySeconds conditional now)) key now')
  = if now' <? now + expirySeconds * Second
    then (value, StatusOK)
    else ("Key not exist", StatusNotFound).
Proof.
  intros Hok Hnow Hpos Hfit. rewrite (Set_written _ _ _ _ _ _ Hok). simpl.
  destruct (expirySeconds >? 0) eqn:E;
    [|rewrite Z.gtb_ltb in E; apply Z.ltb_ge in E; lia].
  rewrite wrap64_in_range by (unfold Second in *; lia).
  destruct (now' <? now + expirySeconds * Second) eqn:Hlt.
  - apply Z.ltb_lt in Hlt.
    by rewrite (Get_live _ key _ now' (lookup_store_eq _ _ _)) by (by right).
  - apply Z.ltb_ge in Hlt.
    rewrite (Get_expired _ key _ now' (lookup_store_eq _ _ _)); [done| |simpl; lia].
    simpl. unfold IsZero. apply Z.eqb_neq. unfold Second in *. lia.
Qed.

(** A TTL whose product with a second wraps around to a negative duration
    gives an expiry before the write: on a clock past 2^63 ns, the value is
    NotFound from the moment it is written. *)
Theorem Set_ttl_wrapped_is_expired (ds : Datastore) (key value : string)
    (expirySeconds : Z) (conditional : string) (now now' : Time) :
  snd (fst (Set_ ds key value expirySeconds conditional now)) = StatusOK ->
  0 < expirySeconds -> wrap64 (expirySeconds * Second) < 0 ->
  2 ^ 63 < now -> now <= now' ->
  fst (Get (snd (Set_ ds key value expirySeconds conditional now)) key now')
  = ("Key not exist", StatusNotFound).
Proof.
  intros Hok Hpos Hneg Hnow Hlater. rewrite (Set_written _ _ _ _ _ _ Hok). simpl.
  destruct (expirySeconds >? 0) eqn:E;
    [|rewrite Z.gtb_ltb in E; apply Z.ltb_ge in E; lia].
  assert (- 2 ^ 63 <= wrap64 (expirySeconds * Second)) as Hlow.
  { unfold wrap64.
    pose proof (Z.mod_pos_bound (expirySeconds * Second + 2 ^ 63) (2 ^ 64)). lia. }
  rewrite (Get_expired _ key _ now' (lookup_store_eq _ _ _)); [done| |simpl; lia].
  simpl. unfold IsZero. apply Z.eqb_neq. lia.
Qed.

(** After a [Set] that returned OK the key is Scalar-kind: [QPush] on it
    fails with Conflict and [QPop] with BadRequest, both without changing
    the store. *)
Theorem Set_then_queue_calls_fail (ds : Datastore) (key value : string)
    (expirySeconds : Z) (conditional : string) (now : Time) (values : list string) :
  snd (fst (Set_ ds key value expirySeconds conditional now)) = StatusOK ->
  let ds' := snd (Set_ ds key value expirySeconds conditional now) in
  QPush ds' key values = (("Key already exists", StatusConflict), ds')
  /\ QPop ds' key
     = (("Q is empty so nothing can be popped!!", StatusBadRequest), ds').
Proof.
  intros Hok. cbv zeta. rewrite (Set_written _ _ _ _ _ _ Hok). simpl. split.
  - by apply (QPush_scalar _ key _ values (lookup_store_eq _ _ _)).
  - apply QPop_nothing. by rewrite lookup_store_eq.
Qed.

(** Two pushes in a row are one push of the two lists of values, one after
    the other: same message and status, same store. *)
Theorem QPush_twice (ds : Datastore) (key : string) (values1 values2 : list string) :
  QPush (snd (QPush ds key values1)) key values2
  = QPush ds key (values1 ++ values2).
Proof.
  destruct (data ds !! key) as [d|] eqn:Hd.
  - destruct (isQueued d) eqn:Hq.
    + rewrite (QPush_queue ds key d values1 Hd Hq). cbn [snd].
      rewrite (QPush_queue _ key (with_queue d (queue d ++ values1)) values2
                 (lookup_store_eq _ _ _) Hq).
      rewrite (QPush_queue ds key d _ Hd Hq). simpl.
      by rewrite store_store, app_assoc.
    + rewrite (QPush_scalar ds key d values1 Hd Hq). simpl.
      by rewrite !(QPush_scalar ds key d _ Hd Hq).
  - rewrite !(QPush_fresh ds key _ Hd). cbn [snd].
    rewrite (QPush_queue _ key _ values2 (lookup_store_eq _ _ _)) by done. simpl.
    by rewrite store_store.
Qed.

Lemma QPop_after_QPush (ds : Datastore) (key : string)
    (values : list string) (x : string) :
  snd (fst (QPush ds key (values ++ [x]))) = StatusOK ->
  QPop (snd (QPush ds key (values ++ [x]))) key
  = ((x, StatusOK), snd (QPush ds key values)).
Proof.
  destruct (data ds !! key) as [d|] eqn:Hd.
  - destruct (isQueued d) eqn:Hq.
    + intros _. rewrite !(QPush_queue ds key d _ Hd Hq). cbn [snd].
      rewrite (QPop_snoc _ key _ (queue d ++ values) x (lookup_store_eq _ _ _));
        [|done|simpl; by rewrite app_assoc].
      simpl. by rewrite store_store.
    + rewrite (QPush_scalar ds key d _ Hd Hq). discriminate.
  - intros _. rewrite !(QPush_fresh ds key _ Hd). cbn [snd].
    rewrite (QPop_snoc _ key _ values x (lookup_store_eq _ _ _)) by done.
    simpl. by rewrite store_store.
Qed.

(** [QPop] undoes the last pushed value: after a [QPush] of [values]
    followed by [x] that returned OK, one [QPop] leaves the store that the
    [QPush] of [values] alone gives. *)
Theorem QPush_QPop_restores_store (ds : Datastore) (key : string)
    (values : list string) (x : string) :
  snd (fst (QPush ds key (values ++ [x]))) = StatusOK ->
  snd (QPop (snd (QPush ds key (values ++ [x]))) key)
  = snd (QPush ds key values).
Proof.
  destruct (data ds !! key) as [d|] eqn:Hd.
  - destruct (isQueued d) eqn:Hq.
    + intros _. rewrite !(QPush_queue ds key d _ Hd Hq). cbn [snd].
      rewrite (QPop_snoc _ key _ (queue d ++ values) x (lookup_store_eq _ _ _));
        [|done|simpl; by rewrite app_assoc].
      simpl. by rewrite store_store.
    + rewrite (QPush_scalar ds key d _ Hd Hq). discriminate.
  - intros _. rewrite !(QPush_fresh ds key _ Hd). cbn [snd].
    rewrite (QPop_snoc _ key _ values x (lookup_store_eq _ _ _)) by done.
    simpl. by rewrite store_store.
Qed.

Lemma QPop_times_queue (q : list string) (ds : Datastore) (key : string) (d : Data) :
  data ds !! key = Some d -> isQueued d = true -> queue d = q ->
  QPop_times (length q) ds key
  = (map (fun v => (v, StatusOK)) (rev q), store ds key (with_queue d [])).
Proof.
  revert ds d. induction q as [|x l IH] using rev_ind; intros ds d Hd Hq Hl.
  - simpl. f_equal. destruct ds as [m], d as [v e k q']. simpl in *. subst.
    unfold store, with_queue. simpl. by rewrite insert_id.
  - rewrite length_app, Nat.add_comm. simpl.
    rewrite (QPop_snoc ds key d l x Hd Hq Hl).
    rewrite (IH _ (with_queue d l) (lookup_store_eq _ _ _) Hq eq_refl).
    rewrite rev_app_distr. simpl. by rewrite store_store.
Qed.

(** A queue gives its values back in the reverse of the order they were
    pushed in: on a key that is not in the store, after [QPush] of [values]
    as many [QPop]s as there are values return them last to first, each
    with status OK; the key then holds an empty queue and one more [QPop]
    fails with BadRequest. *)
Theorem QPop_times_reverses (ds : Datastore) (key : string) (values : list string) :
  data ds !! key = None ->
  let r := QPop_times (length values) (snd (QPush ds key values)) key in
  fst r = map (fun v => (v, StatusOK)) (rev values)
  /\ data (snd r) !! key
     = Some {| value := ""; expiry := Time_zero; isQueued := true; queue := [] |}
  /\ snd (fst (QPop (snd r) key)) = StatusBadRequest.
Proof.
  intros Hfresh. cbv zeta. rewrite (QPush_fresh ds key values Hfresh). cbn [snd].
  rewrite (QPop_times_queue values _ key _ (lookup_store_eq _ _ _)) by done.
  cbn [fst snd]. rewrite store_store. split; [done|].
  split; [by rewrite lookup_store_eq|].
  rewrite QPop_nothing; [done|]. by rewrite lookup_store_eq.
Qed.

(** A call changes the store at most at its own key. *)
Theorem apply_op_other_keys (ds : Datastore) (o : op) (now : Time) (key : string) :
  key <> op_key o ->
  data (apply_op ds o now) !! key = data ds !! key.
Proof.
  intros Hne.
  assert (forall k d, k = op_key o ->
            data (store ds k d) !! key = data ds !! key) as Hstore.
  { intros k d ->. by apply lookup_store_ne. }
  assert (forall k, k = op_key o ->
            data (snd (QPop ds k)) !! key = data ds !! key) as HQPop.
  { intros k Hk. unfold QPop. destruct (data ds !! k) as [d|]; [|done].
    destruct (nothing_to_pop (Some d)); [done|]. by apply Hstore. }
  destruct o as [k v e c|k|k values|k|k timeoutSeconds fuel]; simpl in *.
  - unfold Set_. destruct (data ds !! k), (String.eqb c _); simpl;
      done || by apply Hstore.
  - by rewrite Get_store_unchanged.
  - unfold QPush. destruct (data ds !! k) as [d|]; [|by apply Hstore].
    destruct (isQueued d); simpl; done || by apply Hstore.
  - by apply HQPop.
  - unfold BQPop.
    destruct (BQPop_loop _ _ _ _ _) as [[[r ds'] t]|] eqn:E; [|done].
    apply BQPop_loop_result in E as [(_ & _ & -> & _)|(_ & E & _)]; [done|].
    specialize (HQPop k eq_refl). by rewrite <- E in HQPop.
Qed.

Lemma apply_op_keeps_key (ds : Datastore) (o : op) (now : Time) (key : string) :
  is_Some (data ds !! key) -> is_Some (data (apply_op ds o now) !! key).
Proof.
  intros Hin.
  destruct (apply_op_cases ds o now)
    as [->|[(k & v & e & _ & ->)|[(k & d0 & q & _ & _ & ->)|(k & q & _ & ->)]]];
    [done| | |].
  all: destruct (decide (k = key)) as [->|Hne];
    [by rewrite lookup_store_eq|by rewrite lookup_store_ne].
Qed.

(** No call removes a key: a key that is in the store is in the store after
    every sequence of calls. *)
Theorem run_keeps_keys (calls : list (op * Time)) (ds : Datastore) (key : string) :
  is_Some (data ds !! key) -> is_Some (data (run ds calls) !! key).
Proof.
  revert ds. induction calls as [|[o now] calls IH]; intros ds Hin; [done|].
  simpl. apply IH. by apply apply_op_keeps_key.
Qed.

(** ** Further properties of the blocking pop *)

Lemma BQPop_something (fuel : nat) (ds : Datastore) (key : string)
    (timeoutSeconds : float64) (now : Time) :
  nothing_to_pop (data ds !! key) = false ->
  BQPop (S fuel) ds key timeoutSeconds now = Some (QPop ds key, now)
  /\ snd (fst (QPop ds key)) = StatusOK.
Proof.
  intros Hn. destruct (data ds !! key) as [d|] eqn:Hd; [|done].
  unfold BQPop. rewrite (BQPop_loop_something _ ds key _ now d Hd Hn).
  unfold QPop. by rewrite Hd, Hn.
Qed.

(** When there is something to pop, the blocking pop does not wait: for
    every timeout it returns at once what [QPop] returns, with status OK. *)
Theorem BQPop_with_data_is_QPop (fuel : nat) (ds : Datastore) (key : string)
    (timeoutSeconds : float64) (now : Time) :
  nothing_to_pop (data ds !! key) = false ->
  BQPop (S fuel) ds key timeoutSeconds now = Some (QPop ds key, now)
  /\ snd (fst (QPop ds key)) = StatusOK.
Proof.
  intros Hn. destruct (data ds !! key) as [d|] eqn:Hd; [|done].
  unfold BQPop. rewrite (BQPop_loop_something _ ds key _ now d Hd Hn).
  unfold QPop. by rewrite Hd, Hn.
Qed.



(** ** Further properties of the parser and the dispatcher *)

Lemma Split_no_sep (s : string) (sep : ascii) :
  Forall (fun w => contains_byte w sep = false) (Split s sep).
Proof.
  induction s as [|c s IH]; simpl; [by repeat constructor|].
  destruct (Ascii.eqb c sep) eqn:E; [by constructor|].
  destruct (Split s sep) as [|w ws];
    [constructor; [simpl; by rewrite E|constructor]|].
  apply Forall_cons in IH as [Hw Hws]. constructor; [|done].
  simpl. by rewrite E.
Qed.

(** No argument that the parser hands to the dispatcher contains a space:
    a key or a value with a space in it cannot be written. *)
Theorem ParseCommand_args_no_space (rawCommand command : string)
    (args : list string) :
  ParseCommand rawCommand = Val (command, args) ->
  Forall (fun a => contains_byte a " " = false) args.
Proof.
  unfold ParseCommand. pose proof (Split_no_sep rawCommand " ") as H.
  destruct (Split rawCommand " ") as [|a0 rest]; [done|].
  simpl. rewrite drop_0. intros [= _ <-]. by apply Forall_cons in H as [_ H].
Qed.

Lemma Split_token (w rest : string) (sep : ascii) :
  contains_byte w sep = false ->
  Split (w ++ String sep rest) sep = w :: Split rest sep.
Proof.
  induction w as [|c w IH]; simpl; intros H.
  - by rewrite Ascii.eqb_refl.
  - apply orb_false_iff in H as [Hc Hw]. by rewrite Hc, (IH Hw).
Qed.

Lemma Split_single (w : string) (sep : ascii) :
  contains_byte w sep = false -> Split w sep = [w].
Proof.
  induction w as [|c w IH]; simpl; intros H; [done|].
  apply orb_false_iff in H as [Hc Hw]. by rewrite Hc, (IH Hw).
Qed.

Lemma upper_byte_facts (c : ascii) :
  is_ascii_byte c = true ->
  is_ascii_byte (upper_byte c) = true
  /\ upper_byte (upper_byte c) = upper_byte c
  /\ (Ascii.eqb c " " = false -> Ascii.eqb (upper_byte c) " " = false).
Proof.
  destruct c as [[] [] [] [] [] [] [] []]; vm_compute; intros H;
    (discriminate H || (split; [reflexivity|split; [reflexivity|intros H'; exact H' || reflexivity]])).
Qed.

Lemma upper_bytes_facts (s : string) :
  isASCII s = true ->
  isASCII (upper_bytes s) = true
  /\ upper_bytes (upper_bytes s) = upper_bytes s
  /\ (contains_byte s " " = false -> contains_byte (upper_bytes s) " " = false).
Proof.
  induction s as [|c s IH]; simpl; [done|]. intros H.
  apply andb_true_iff in H as [Hc Hs].
  destruct (upper_byte_facts c Hc) as (H1 & H2 & H3).
  destruct (IH Hs) as (I1 & I2 & I3).
  rewrite H1, I1, H2, I2. split; [done|]. split; [done|].
  intros H. apply orb_false_iff in H as [Hc' Hs'].
  by rewrite (H3 Hc'), (I3 Hs').
Qed.

Lemma ParseCommand_verb (verb tail : string) :
  isASCII verb = true -> contains_byte verb " " = false ->
  tail = "" \/ (exists rest, tail = String " " rest) ->
  ParseCommand (verb ++ tail)
  = Val (upper_bytes verb,
         match tail with
         | EmptyString => []
         | String _ rest => Split rest " "
         end).
Proof.
  intros Ha Hs [->|[rest ->]]; unfold ParseCommand, ToUpper.
  - assert ((verb ++ "")%string = verb) as ->
      by (clear; induction verb as [|c w IH]; [done|];
          change (String c (w ++ "")%string = String c w); by rewrite IH).
    rewrite (Split_single verb " " Hs). simpl. by rewrite Ha.
  - rewrite (Split_token verb rest " " Hs). simpl. by rewrite Ha, drop_0.
Qed.

(** The verb is matched without regard to case: a command whose first
    token is made of ASCII bytes gives the same outcome as the command with
    that token in upper case. *)
Theorem HandleCommand_verb_case_insensitive (ds : Datastore) (verb tail : string)
    (now : Time) (fuel : nat) :
  isASCII verb = true -> contains_byte verb " " = false ->
  tail = "" \/ (exists rest, tail = String " " rest) ->
  HandleCommand ds (verb ++ tail) now fuel
  = HandleCommand ds (upper_bytes verb ++ tail) now fuel.
Proof.
  intros Ha Hs Ht. destruct (upper_bytes_facts verb Ha) as (Ha' & Hidem & Hs').
  unfold HandleCommand.
  rewrite (ParseCommand_verb verb tail Ha Hs Ht).
  rewrite (ParseCommand_verb (upper_bytes verb) tail Ha' (Hs' Hs) Ht).
  by rewrite Hidem.
Qed.

Lemma Set_outcome (ds : Datastore) (key value : string) (expirySeconds : Z)
    (conditional : string) (now : Time) :
  ok_or_unchanged ds (snd (fst (Set_ ds key value expirySeconds conditional now)))
    (snd (Set_ ds key value expirySeconds conditional now)).
Proof.
  unfold Set_, ok_or_unchanged.
  destruct (data ds !! key), (String.eqb conditional _); simpl; auto.
Qed.

Lemma Get_outcome (ds : Datastore) (key : string) (now : Time) :
  ok_or_unchanged ds (snd (fst (Get ds key now))) (snd (Get ds key now)).
Proof.
  unfold Get, ok_or_unchanged. destruct (data ds !! key) as [d|]; simpl; auto.
  destruct (IsZero (expiry d) || Before now (expiry d)); simpl; auto.
Qed.

Lemma QPush_outcome (ds : Datastore) (key : string) (values : list string) :
  ok_or_unchanged ds (snd (fst (QPush ds key values))) (snd (QPush ds key values)).
Proof.
  unfold QPush, ok_or_unchanged. destruct (data ds !! key) as [d|]; simpl; auto.
  destruct (isQueued d); simpl; auto.
Qed.

Lemma QPop_outcome (ds : Datastore) (key : string) :
  ok_or_unchanged ds (snd (fst (QPop ds key))) (snd (QPop ds key)).
Proof.
  unfold QPop, ok_or_unchanged. destruct (data ds !! key) as [d|]; simpl; auto.
  destruct (negb (isQueued d) || (length (queue d) =? 0)%nat); simpl; auto.
Qed.

Lemma BQPop_outcome (fuel : nat) (ds : Datastore) (key : string)
    (timeoutSeconds : float64) (now : Time) (r : string * Z) (ds' : Datastore)
    (t : Time) :
  BQPop fuel ds key timeoutSeconds now = Some (r, ds', t) ->
  ok_or_unchanged ds (snd r) ds'.
Proof.
  unfold BQPop. intros H.
  apply BQPop_loop_result in H as [(_ & -> & -> & _)|(_ & E & _)].
  - right. auto.
  - pose proof (QPop_outcome ds key) as H. by rewrite <- E in H.
Qed.

Ltac with_outcome :=
  match goal with
  | |- context [Set_ ?a ?b ?c ?d ?e ?f] =>
      pose proof (Set_outcome a b c d e f);
      destruct (Set_ a b c d e f) as [[? ?] ?]
  | |- context [Get ?a ?b ?c] =>
      pose proof (Get_outcome a b c); destruct (Get a b c) as [[? ?] ?]
  | |- context [QPush ?a ?b ?c] =>
      pose proof (QPush_outcome a b c); destruct (QPush a b c) as [[? ?] ?]
  | |- context [QPop ?a ?b] =>
      pose proof (QPop_outcome a b); destruct (QPop a b) as [[? ?] ?]
  end.

Ltac read_outcome :=
  simpl in *; split_results;
  intros [= <- <- <-]; (assumption || (right; auto)).

Lemma dispatch_outcome (ds : Datastore) (command : string) (args : list string)
    (now : Time) (fuel : nat) (p : payload) (status : Z) (ds' : Datastore) :
  dispatch ds command args now fuel = Val (Returns p status ds') ->
  ok_or_unchanged ds status ds'.
Proof.
  unfold dispatch, ValidateBQPopInput.
  destruct (String.eqb command "SET").
  { destruct (negb (ValidateSetInput args)); [intros [= <- <- <-]; right; auto|].
    destruct args as [|a0 [|a1 [|a2 [|a3 [|a4 [|a5 rest]]]]]]; simpl;
      unfold slice_from; try done.
    all: try (destruct (2 <=? String.length a2)%nat; simpl; [|done]).
    all: with_outcome; read_outcome. }
  destruct (String.eqb command "GET").
  { destruct args as [|a0 [|a1 rest]]; simpl;
      try (intros [= <- <- <-]; right; by auto).
    with_outcome. read_outcome. }
  destruct (String.eqb command "QPUSH").
  { destruct args as [|a0 [|a1 rest]]; simpl;
      try (intros [= <- <- <-]; right; by auto).
    with_outcome. read_outcome. }
  destruct (String.eqb command "QPOP").
  { destruct args as [|a0 [|a1 rest]]; simpl;
      try (intros [= <- <- <-]; right; by auto).
    with_outcome. read_outcome. }
  destruct (String.eqb command "BQPOP"); [|intros [= <- <- <-]; right; by auto].
  destruct args as [|a0 [|a1 [|a2 rest]]]; simpl;
    try (intros [= <- <- <-]; right; by auto).
  destruct (snd (ParseFloat a1)); simpl; [intros [= <- <- <-]; right; by auto|].
  destruct (BQPop _ _ _ _ _) as [[[[m st] ds1] t]|] eqn:E; [|done].
  apply BQPop_outcome in E. read_outcome.
Qed.

(** A command that does not return OK has not changed the store: whenever
    [HandleCommand] returns, the status is OK, BadRequest, NotFound or
    Conflict, and with the last three the store is the one it was given. *)
Theorem HandleCommand_failure_no_mutation (ds : Datastore) (rawCommand : string)
    (now : Time) (fuel : nat) (p : payload) (status : Z) (ds' : Datastore) :
  HandleCommand ds rawCommand now fuel = Returns p status ds' ->
  (status = StatusOK \/ status = StatusBadRequest
   \/ status = StatusNotFound \/ status = StatusConflict)
  /\ (status <> StatusOK -> ds' = ds).
Proof.
  unfold HandleCommand.
  destruct (ParseCommand_total rawCommand) as (command & args & ->). simpl.
  destruct (dispatch ds command args now fuel) as [o|msg] eqn:E; [|done].
  intros ->. apply dispatch_outcome in E as [->|[Hst ->]].
  - split; [by left|done].
  - split; [by right|done].
Qed.

Lemma Set_unconditional (ds : Datastore) (key value : string)
    (expirySeconds : Z) (now : Time) :
  Set_ ds key value expirySeconds "" now
  = (("Enter data sucessfull", StatusOK),
     store ds key (scalar_entry value expirySeconds now)).
Proof. unfold Set_. by destruct (data ds !! key). Qed.

Lemma slice_from_in_range (s : string) (n : nat) :
  (n <= String.length s)%nat ->
  slice_from s n = Val (substring n (String.length s - n) s).
Proof.
  intros H. unfold slice_from. apply Nat.leb_le in H. by rewrite H.
Qed.

Lemma HandleCommand_parsed (ds : Datastore) (rawCommand command : string)
    (args : list string) (now : Time) (fuel : nat) (o : outcome) :
  ParseCommand rawCommand = Val (command, args) ->
  dispatch ds command args now fuel = Val o ->
  HandleCommand ds rawCommand now fuel = o.
Proof.
  intros Hp Hd. unfold HandleCommand, bind. rewrite Hp. cbn [fst snd].
  by rewrite Hd.
Qed.

(** A [SET] with three arguments never looks at the first two bytes of the
    third: whenever the third argument has two bytes or more, the value is
    written, over whatever the key held, with the integer read after those
    two bytes as its TTL. *)
Theorem HandleCommand_SET_three_args (ds : Datastore)
    (rawCommand key value third : string) (now : Time) (fuel : nat) :
  ParseCommand rawCommand = Val ("SET", [key; value; third]) ->
  (2 <= String.length third)%nat ->
  HandleCommand ds rawCommand now fuel
  = Returns (Str "Enter data sucessfull") StatusOK
      (store ds key
         (scalar_entry value
            (fst (Atoi (substring 2 (String.length third - 2) third))) now)).
Proof.
  intros Hp Hlen. apply (HandleCommand_parsed _ _ _ _ _ _ _ Hp).
  unfold dispatch. simpl. rewrite (slice_from_in_range third 2 Hlen). simpl.
  by rewrite Set_unconditional.
Qed.

(** A [SET] with four arguments never reads the fourth: when the third is
    [EX] followed by at least one byte, the value is written whatever the
    fourth argument is and whether or not the key exists, so a flag NX or XX
    in fourth place has no effect. *)
Theorem HandleCommand_SET_four_args (ds : Datastore)
    (rawCommand key value third fourth : string) (now : Time) (fuel : nat) :
  ParseCommand rawCommand = Val ("SET", [key; value; third; fourth]) ->
  HasPrefix third "EX" = true -> (2 < String.length third)%nat ->
  HandleCommand ds rawCommand now fuel
  = Returns (Str "Enter data sucessfull") StatusOK
      (store ds key
         (scalar_entry value
            (fst (Atoi (substring 2 (String.length third - 2) third))) now)).
Proof.
  intros Hp Hpre Hlen. apply (HandleCommand_parsed _ _ _ _ _ _ _ Hp).
  unfold dispatch, ValidateSetInput. simpl. rewrite Hpre. simpl.
  assert ((String.length third <=? 2)%nat = false) as ->
    by (apply Nat.leb_gt; lia).
  simpl. rewrite (slice_from_in_range third 2) by lia. simpl.
  by rewrite Set_unconditional.
Qed.

(** What a [SET] command with a key and a value writes, a [GET] command on
    the key reads back at every later reading of the clock, wrapped as the
    mapping from "value" to the value. *)
Theorem HandleCommand_SET_GET_roundtrip (ds : Datastore)
    (rawSet rawGet key value : string) (now now' : Time) (fuel fuel' : nat) :
  ParseCommand rawSet = Val ("SET", [key; value]) ->
  ParseCommand rawGet = Val ("GET", [key]) ->
  exists ds1,
    HandleCommand ds rawSet now fuel
    = Returns (Str "Enter data sucessfull") StatusOK ds1
    /\ HandleCommand ds1 rawGet now' fuel'
       = Returns (Fields {[ "value" := value ]}) StatusOK ds1.
Proof.
  intros Hset Hget. exists (store ds key (scalar_entry value 0 now)). split.
  - apply (HandleCommand_parsed _ _ _ _ _ _ _ Hset).
    unfold dispatch. simpl. by rewrite Set_unconditional.
  - apply (HandleCommand_parsed _ _ _ _ _ _ _ Hget).
    rewrite dispatch_GET.
    by rewrite (Get_live _ key _ now' (lookup_store_eq _ _ _)) by (by left).
Qed.

Lemma dispatch_QPUSH (ds : Datastore) (key v0 : string) (vs : list string)
    (now : Time) (fuel : nat) :
  dispatch ds "QPUSH" (key :: v0 :: vs) now fuel
  = let '((msg, status), ds') := QPush ds key (v0 :: vs) in
    Val (Returns (Str msg) status ds').
Proof. reflexivity. Qed.

(** What a [QPUSH] command pushes last, the next [QPOP] command on the key
    returns, wrapped as the mapping from "value" to the element, and the
    store is then the one that pushing the other values alone gives. *)
Theorem HandleCommand_QPUSH_QPOP_roundtrip (ds : Datastore)
    (rawPush rawPop key : string) (values : list string) (x : string)
    (now now' : Time) (fuel fuel' : nat) :
  ParseCommand rawPush = Val ("QPUSH", key :: values ++ [x]) ->
  ParseCommand rawPop = Val ("QPOP", [key]) ->
  snd (fst (QPush ds key (values ++ [x]))) = StatusOK ->
  HandleCommand ds rawPush now fuel
  = Returns (Str "Value is pushed successfully") StatusOK
      (snd (QPush ds key (values ++ [x])))
  /\ HandleCommand (snd (QPush ds key (values ++ [x]))) rawPop now' fuel'
     = Returns (Fields {[ "value" := x ]}) StatusOK (snd (QPush ds key values)).
Proof.
  intros Hpush Hpop Hok. split.
  - apply (HandleCommand_parsed _ _ _ _ _ _ _ Hpush).
    assert (exists v0 vs, values ++ [x] = v0 :: vs) as (v0 & vs & E)
      by (destruct values; simpl; eauto).
    rewrite E in *. rewrite dispatch_QPUSH.
    revert Hok. unfold QPush. destruct (data ds !! key) as [d|]; [|done].
    by destruct (isQueued d).
  - apply (HandleCommand_parsed _ _ _ _ _ _ _ Hpop).
    rewrite dispatch_QPOP. by rewrite (QPop_after_QPush ds key values x Hok).
Qed.

(** A [BQPOP] command on a key with something to pop gives what the
    [QPOP] command on that key gives, whatever the timeout. *)
Theorem HandleCommand_BQPOP_with_data (ds : Datastore)
    (rawBQPop rawQPop key timeout : string) (now : Time) (fuel fuel' : nat) :
  ParseCommand rawBQPop = Val ("BQPOP", [key; timeout]) ->
  ParseCommand rawQPop = Val ("QPOP", [key]) ->
  snd (ParseFloat timeout) = false ->
  nothing_to_pop (data ds !! key) = false ->
  HandleCommand ds rawBQPop now (S fuel) = HandleCommand ds rawQPop now fuel'.
Proof.
  intros HB HQ Hfloat Hn.
  destruct (BQPop_something fuel ds key (fst (ParseFloat timeout)) now Hn)
    as [Hb Hok].
  unfold HandleCommand, bind. rewrite HB, HQ. cbn [fst snd].
  rewrite dispatch_QPOP. unfold dispatch, ValidateBQPopInput. simpl.
  rewrite Hfloat. simpl. rewrite Hb.
  destruct (QPop ds key) as [[v st] ds1]. simpl in Hok. by rewrite Hok.
Qed.

End Platform.

(** ** The properties on sample stores and commands *)

Lemma QPush_QPop_LIFO_witness :
  data NewDatastore !! "q" = None
  /\ fst (QPop (snd (QPush NewDatastore "q" ["a"; "b"])) "q") = ("b", StatusOK)
  /\ snd (fst (QPush ds_queue "q" (["b"] ++ ["c"]))) = StatusOK
  /\ fst (QPop (snd (QPush ds_queue "q" (["b"] ++ ["c"]))) "q") = ("c", StatusOK).
Proof.
  split; [reflexivity|].
  destruct (QPush_QPop_LIFO NewDatastore "q" eq_refl) as [(_ & H & _) (_ & Hlast)].
  split; [exact H|]. split; [reflexivity|].
  exact (Hlast ds_queue "q" ["b"] "c" eq_refl).
Defined.

Lemma Set_conditional_failure_no_mutation_witness :
  (is_Some (data ds_scalar !! "k")
   /\ Set_ ds_scalar "k" "w" 0 "NX" 2000 = (("", StatusConflict), ds_scalar))
  /\ (data NewDatastore !! "k" = None
      /\ Set_ NewDatastore "k" "w" 0 "XX" 2000 = (("", StatusNotFound), NewDatastore)).
Proof.
  assert (is_Some (data ds_scalar !! "k")) as H1 by (eexists; reflexivity).
  assert (data NewDatastore !! "k" = None) as H2 by reflexivity.
  split; (split; [assumption|]).
  - exact (proj1 (Set_conditional_failure_no_mutation ds_scalar "k" "w" 0 2000) H1).
  - exact (proj2 (Set_conditional_failure_no_mutation NewDatastore "k" "w" 0 2000) H2).
Defined.

Lemma Get_expired_or_absent_not_found_witness :
  ((exists d, data ds_expiring !! "k" = Some d
              /\ IsZero (expiry d) = false /\ 5000001000 >= expiry d)
   /\ Get ds_expiring "k" 5000001000
      = (("Key not exist", StatusNotFound), ds_expiring))
  /\ (data ds_expiring !! "j" = None
      /\ Get ds_expiring "j" 2000 = (("Key not exist", StatusNotFound), ds_expiring)).
Proof.
  assert (exists d, data ds_expiring !! "k" = Some d
                    /\ IsZero (expiry d) = false /\ 5000001000 >= expiry d) as H.
  { eexists. split; [reflexivity|]. split; [reflexivity|]. vm_compute. discriminate. }
  assert (data ds_expiring !! "j" = None) as H' by reflexivity.
  split; (split; [assumption|]).
  - exact (proj1 (Get_expired_or_absent_not_found ds_expiring "k" 5000001000
                    (or_intror H))).
  - exact (proj1 (Get_expired_or_absent_not_found ds_expiring "j" 2000
                    (or_introl H'))).
Defined.

Lemma QPop_last_element_keeps_key_witness :
  data ds_queue !! "q"
  = Some {| value := ""; expiry := 0; isQueued := true; queue := ["a"] |}
  /\ fst (QPop ds_queue "q") = ("a", StatusOK)
  /\ data (snd (QPop ds_queue "q")) !! "q"
     = Some {| value := ""; expiry := 0; isQueued := true; queue := [] |}.
Proof.
  assert (data ds_queue !! "q"
          = Some {| value := ""; expiry := 0; isQueued := true; queue := ["a"] |})
    as H by reflexivity.
  split; [exact H|].
  destruct (QPop_last_element_keeps_key ds_queue "q" _ "a" H eq_refl eq_refl)
    as (H1 & H2 & _).
  split; [exact H1|exact H2].
Defined.

Lemma Set_conditional_ignores_expiry_witness :
  data ds_expiring !! "k"
  = Some {| value := "v"; expiry := 5000001000; isQueued := false; queue := [] |}
  /\ fst (Get ds_expiring "k" 6000000000) = ("Key not exist", StatusNotFound)
  /\ Set_ ds_expiring "k" "w" 0 "NX" 6000000000 = (("", StatusConflict), ds_expiring)
  /\ fst (Set_ ds_expiring "k" "w" 0 "XX" 6000000000)
     = ("Enter data sucessfull", StatusOK).
Proof.
  assert (data ds_expiring !! "k"
          = Some {| value := "v"; expiry := 5000001000; isQueued := false; queue := [] |})
    as H by reflexivity.
  split; [exact H|].
  destruct (Set_conditional_ignores_expiry ds_expiring "k" "w" 0 6000000000 _ H)
    as (H1 & H2 & H3 & _); [reflexivity|vm_compute; discriminate|].
  split; [exact H1|]. split; [exact H2|exact H3].
Defined.

Lemma Get_on_queue_key_returns_empty_witness :
  (data NewDatastore !! "q" = None
   /\ Get (snd (QPush NewDatastore "q" ["a"])) "q" 7
      = (("", StatusOK), snd (QPush NewDatastore "q" ["a"])))
  /\ (let calls := [(OpQPush "q" ["a"; "b"], 1); (OpQPop "q", 2); (OpSet "k" "v" 5 "", 3)] in
      let ds := run amd64_int64_of_unrepresentable NewDatastore calls in
      data ds !! "q"
      = Some {| value := ""; expiry := 0; isQueued := true; queue := ["a"] |}
      /\ Get ds "q" 7 = (("", StatusOK), ds)).
Proof.
  split; (split; [reflexivity|]).
  - exact (proj1 (Get_on_queue_key_returns_empty amd64_int64_of_unrepresentable
                    NewDatastore "q" ["a"] []
                    {| value := ""; expiry := 0; isQueued := true; queue := [] |} 7)
             eq_refl).
  - exact (proj2 (Get_on_queue_key_returns_empty amd64_int64_of_unrepresentable
                    NewDatastore "q" []
                    [(OpQPush "q" ["a"; "b"], 1); (OpQPop "q", 2); (OpSet "k" "v" 5 "", 3)]
                    {| value := ""; expiry := 0; isQueued := true; queue := ["a"] |} 7)
             eq_refl eq_refl).
Defined.

Lemma kind_changes_only_by_Set_witness :
  (data ds_scalar !! "k"
   = Some {| value := "v"; expiry := 0; isQueued := false; queue := [] |}
   /\ QPush ds_scalar "k" ["a"] = (("Key already exists", StatusConflict), ds_scalar)
   /\ exists d', data (run amd64_int64_of_unrepresentable ds_scalar
                         [(OpSet "k" "w" 5 "", 1); (OpQPush "k" ["a"], 2);
                          (OpSet "k" "x" 0 "XX", 3)]) !! "k"
                  = Some d'
                  /\ isQueued d' = false)
  /\ (data ds_queue !! "q"
      = Some {| value := ""; expiry := 0; isQueued := true; queue := ["a"] |}
      /\ Set_ ds_queue "q" "w" 0 "" 2000
         = (("Enter data sucessfull", StatusOK),
            store ds_queue "q"
              {| value := "w"; expiry := 0; isQueued := false; queue := [] |})
      /\ no_ok_Set_of amd64_int64_of_unrepresentable "q" ds_queue
           [(OpQPop "q", 1); (OpSet "q" "w" 0 "NX", 2); (OpSet "k" "v" 0 "", 3)]
         = true
      /\ exists d', data (run amd64_int64_of_unrepresentable ds_queue
                            [(OpQPop "q", 1); (OpSet "q" "w" 0 "NX", 2);
                             (OpSet "k" "v" 0 "", 3)]) !! "q"
                     = Some d'
                     /\ isQueued d' = true).
Proof.
  assert (data ds_scalar !! "k"
          = Some {| value := "v"; expiry := 0; isQueued := false; queue := [] |})
    as H1 by reflexivity.
  assert (data ds_queue !! "q"
          = Some {| value := ""; expiry := 0; isQueued := true; queue := ["a"] |})
    as H2 by reflexivity.
  pose proof (kind_changes_only_by_Set amd64_int64_of_unrepresentable
                ds_scalar "k" _ H1) as (S1 & S2 & _ & _).
  pose proof (kind_changes_only_by_Set amd64_int64_of_unrepresentable
                ds_queue "q" _ H2) as (_ & _ & Q3 & Q4).
  split; (split; [assumption|]).
  - split; [exact (S1 eq_refl ["a"])|].
    exact (S2 eq_refl [(OpSet "k" "w" 5 "", 1); (OpQPush "k" ["a"], 2);
                       (OpSet "k" "x" 0 "XX", 3)]).
  - split; [exact (Q4 eq_refl "w" 0 "" 2000)|].
    split; [reflexivity|].
    exact (Q3 [(OpQPop "q", 1); (OpSet "q" "w" 0 "NX", 2); (OpSet "k" "v" 0 "", 3)]
              eq_refl).
Defined.

(** C3 as it is written fails on the code: [Set] on the Queue-kind key "q"
    does not return Conflict. *)
Lemma Set_on_queue_key_is_no_conflict :
  ~ (forall (ds : Datastore) (key : string) (d : Data) (value : string)
            (expirySeconds : Z) (conditional : string) (now : Time),
       data ds !! key = Some d -> isQueued d = true ->
       snd (fst (Set_ ds key value expirySeconds conditional now)) = StatusConflict
       /\ snd (Set_ ds key value expirySeconds conditional now) = ds).
Proof.
  intros H.
  destruct (H ds_queue "q" _ "w" 0 "" 2000 eq_refl eq_refl) as [Hstatus _].
  vm_compute in Hstatus. discriminate.
Qed.

Lemma BQPop_0_2_deadline_truncated_witness :
  nothing_to_pop (data NewDatastore !! "q") = true
  /\ BQPop amd64_int64_of_unrepresentable 2 NewDatastore "q" float64_0_2 1000
     = Some (("", StatusNotFound), NewDatastore, 1000 + 100 * Millisecond).
Proof.
  split; [reflexivity|].
  exact (proj1 (proj2 (BQPop_0_2_deadline_truncated amd64_int64_of_unrepresentable
                         NewDatastore "q" 1000 0 eq_refl))).
Defined.

Lemma HandleCommand_GET_QPOP_wrapping_witness :
  (ParseCommand unicode_ToUpper_none "get k" = Val ("GET", ["k"])
   /\ HandleCommand amd64_int64_of_unrepresentable ParseFloat_rejecting
        unicode_ToUpper_none ds_scalar "get k" 2000 0%nat
      = Returns (Fields {[ "value" := "v" ]}) StatusOK ds_scalar
   /\ HandleCommand amd64_int64_of_unrepresentable ParseFloat_rejecting
        unicode_ToUpper_none ds_queue "get k" 2000 0%nat
      = Returns (Str "Key not exist") StatusNotFound ds_queue)
  /\ (ParseCommand unicode_ToUpper_none "QPOP k" = Val ("QPOP", ["k"])
      /\ ParseCommand unicode_ToUpper_none "qpop q" = Val ("QPOP", ["q"])
      /\ HandleCommand amd64_int64_of_unrepresentable ParseFloat_rejecting
        unicode_ToUpper_none ds_scalar "QPOP k" 2000 0%nat
         = Returns (Fields {[ "error" := "Q is empty so nothing can be popped!!" ]})
             StatusBadRequest ds_scalar
      /\ HandleCommand amd64_int64_of_unrepresentable ParseFloat_rejecting
        unicode_ToUpper_none ds_queue "qpop q" 2000 0%nat
         = Returns (Fields {[ "value" := "a" ]}) StatusOK (snd (QPop ds_queue "q"))).
Proof.
  pose (thm := HandleCommand_GET_QPOP_wrapping amd64_int64_of_unrepresentable
                 ParseFloat_rejecting unicode_ToUpper_none).
  split; (split; [reflexivity|]).
  - split.
    + exact (proj1 (proj1 (thm ds_scalar "get k" "k" 2000 0%nat)
                      eq_refl "v" StatusOK ds_scalar eq_refl) eq_refl).
    + refine (proj2 (proj1 (thm ds_queue "get k" "k" 2000 0%nat)
                       eq_refl _ StatusNotFound ds_queue eq_refl) _).
      discriminate.
  - split; [reflexivity|]. split.
    + refine (proj2 (proj2 (proj2 (thm ds_scalar "QPOP k" "k" 2000 0%nat)
                       eq_refl _ StatusBadRequest ds_scalar eq_refl) _)).
      discriminate.
    + exact (proj1 (proj2 (thm ds_queue "qpop q" "q" 2000 0%nat)
                      eq_refl "a" StatusOK _ eq_refl) eq_refl).
Defined.

(** ** The further properties on sample stores and commands *)

Lemma Set_Get_without_ttl_witness :
  snd (fst (Set_ ds_queue "q" "v" 0 "XX" 1000)) = StatusOK
  /\ fst (Get (snd (Set_ ds_queue "q" "v" 0 "XX" 1000)) "q" 999999)
     = ("v", StatusOK).
Proof.
  split; [reflexivity|].
  apply (Set_Get_without_ttl ds_queue "q" "v" 0 "XX" 1000 999999); [reflexivity|lia].
Defined.

Lemma Set_Get_within_ttl_witness :
  snd (fst (Set_ NewDatastore "k" "v" 5 "" 1000)) = StatusOK
  /\ fst (Get (snd (Set_ NewDatastore "k" "v" 5 "" 1000)) "k" 5000000999)
     = ("v", StatusOK)
  /\ fst (Get (snd (Set_ NewDatastore "k" "v" 5 "" 1000)) "k" 5000001000)
     = ("Key not exist", StatusNotFound).
Proof.
  split; [reflexivity|]. split.
  - apply (Set_Get_within_ttl NewDatastore "k" "v" 5 "" 1000 5000000999);
      [reflexivity|lia|lia|reflexivity].
  - apply (Set_Get_within_ttl NewDatastore "k" "v" 5 "" 1000 5000001000);
      [reflexivity|lia|lia|reflexivity].
Defined.

Lemma Set_ttl_wrapped_is_expired_witness :
  wrap64 (9223372037 * Second) < 0
  /\ fst (Get (snd (Set_ NewDatastore "k" "v" 9223372037 "" (2 ^ 64))) "k" (2 ^ 64))
     = ("Key not exist", StatusNotFound).
Proof.
  split; [reflexivity|].
  apply (Set_ttl_wrapped_is_expired NewDatastore "k" "v" 9223372037 "" (2 ^ 64) (2 ^ 64));
    [reflexivity|lia|reflexivity|lia|lia].
Defined.

Lemma Set_then_queue_calls_fail_witness :
  snd (fst (Set_ ds_queue "q" "v" 0 "" 1000)) = StatusOK
  /\ QPush (snd (Set_ ds_queue "q" "v" 0 "" 1000)) "q" ["b"]
     = (("Key already exists", StatusConflict), snd (Set_ ds_queue "q" "v" 0 "" 1000)).
Proof.
  split; [reflexivity|].
  exact (proj1 (Set_then_queue_calls_fail ds_queue "q" "v" 0 "" 1000 ["b"] eq_refl)).
Defined.

Lemma QPush_QPop_restores_store_witness :
  snd (fst (QPush ds_queue "q" (["b"] ++ ["c"]))) = StatusOK
  /\ snd (QPop (snd (QPush ds_queue "q" (["b"] ++ ["c"]))) "q")
     = snd (QPush ds_queue "q" ["b"]).
Proof.
  split; [reflexivity|].
  exact (QPush_QPop_restores_store ds_queue "q" ["b"] "c" eq_refl).
Defined.

Lemma QPop_times_reverses_witness :
  data ds_scalar !! "q" = None
  /\ fst (QPop_times 3 (snd (QPush ds_scalar "q" ["a"; "b"; "c"])) "q")
     = [("c", StatusOK); ("b", StatusOK); ("a", StatusOK)].
Proof.
  split; [reflexivity|].
  exact (proj1 (QPop_times_reverses ds_scalar "q" ["a"; "b"; "c"] eq_refl)).
Defined.

Lemma apply_op_other_keys_witness :
  "q" <> op_key (OpSet "k" "v" 0 "")
  /\ data (apply_op amd64_int64_of_unrepresentable ds_queue (OpSet "k" "v" 0 "") 1000)
       !! "q"
     = data ds_queue !! "q".
Proof.
  assert ("q" <> op_key (OpSet "k" "v" 0 "")) as H by discriminate.
  split; [exact H|].
  exact (apply_op_other_keys amd64_int64_of_unrepresentable ds_queue
           (OpSet "k" "v" 0 "") 1000 "q" H).
Defined.

Lemma run_keeps_keys_witness :
  is_Some (data ds_queue !! "q")
  /\ is_Some (data (run amd64_int64_of_unrepresentable ds_queue
                      [(OpQPop "q", 1); (OpQPop "q", 2); (OpSet "q" "v" 1 "", 3)])
               !! "q").
Proof.
  assert (is_Some (data ds_queue !! "q")) as H by (eexists; reflexivity).
  split; [exact H|].
  exact (run_keeps_keys amd64_int64_of_unrepresentable
           [(OpQPop "q", 1); (OpQPop "q", 2); (OpSet "q" "v" 1 "", 3)]
           ds_queue "q" H).
Defined.

Lemma BQPop_with_data_is_QPop_witness :
  nothing_to_pop (data ds_queue !! "q") = false
  /\ BQPop amd64_int64_of_unrepresentable 1 ds_queue "q" float64_2_5 1000
     = Some (QPop ds_queue "q", 1000).
Proof.
  split; [reflexivity|].
  exact (proj1 (BQPop_with_data_is_QPop amd64_int64_of_unrepresentable
                  0 ds_queue "q" float64_2_5 1000 eq_refl)).
Defined.


Lemma ParseCommand_args_no_space_witness :
  ParseCommand unicode_ToUpper_none "set k  v" = Val ("SET", ["k"; ""; "v"])
  /\ Forall (fun a => contains_byte a " " = false) ["k"; ""; "v"].
Proof.
  split; [reflexivity|].
  exact (ParseCommand_args_no_space unicode_ToUpper_none "set k  v" "SET"
           ["k"; ""; "v"] eq_refl).
Defined.

Lemma HandleCommand_verb_case_insensitive_witness :
  (isASCII "gEt" = true /\ contains_byte "gEt" " " = false)
  /\ HandleCommand amd64_int64_of_unrepresentable ParseFloat_rejecting
       unicode_ToUpper_none ds_scalar ("gEt" ++ " k") 2000 0
     = HandleCommand amd64_int64_of_unrepresentable ParseFloat_rejecting
         unicode_ToUpper_none ds_scalar (upper_bytes "gEt" ++ " k") 2000 0.
Proof.
  split; [split; reflexivity|].
  apply (HandleCommand_verb_case_insensitive amd64_int64_of_unrepresentable
           ParseFloat_rejecting unicode_ToUpper_none ds_scalar "gEt" " k" 2000 0);
    [reflexivity|reflexivity|right; by eexists].
Defined.

Lemma HandleCommand_failure_no_mutation_witness :
  HandleCommand amd64_int64_of_unrepresentable ParseFloat_rejecting
    unicode_ToUpper_none ds_scalar "QPUSH k a" 2000 0
  = Returns (Str "Key already exists") StatusConflict ds_scalar
  /\ (StatusConflict = StatusOK \/ StatusConflict = StatusBadRequest
      \/ StatusConflict = StatusNotFound \/ StatusConflict = StatusConflict).
Proof.
  split; [reflexivity|].
  exact (proj1 (HandleCommand_failure_no_mutation amd64_int64_of_unrepresentable
                  ParseFloat_rejecting unicode_ToUpper_none ds_scalar "QPUSH k a"
                  2000 0 (Str "Key already exists") StatusConflict ds_scalar
                  eq_refl)).
Defined.

Lemma HandleCommand_SET_three_args_witness :
  ParseCommand unicode_ToUpper_none "SET q w AB7" = Val ("SET", ["q"; "w"; "AB7"])
  /\ HandleCommand amd64_int64_of_unrepresentable ParseFloat_rejecting
       unicode_ToUpper_none ds_queue "SET q w AB7" 1000 0
     = Returns (Str "Enter data sucessfull") StatusOK
         (store ds_queue "q"
            {| value := "w"; expiry := 7000001000; isQueued := false; queue := [] |}).
Proof.
  split; [reflexivity|].
  apply (HandleCommand_SET_three_args amd64_int64_of_unrepresentable
           ParseFloat_rejecting unicode_ToUpper_none ds_queue "SET q w AB7"
           "q" "w" "AB7" 1000 0); [reflexivity|simpl; lia].
Defined.

Lemma HandleCommand_SET_four_args_witness :
  ParseCommand unicode_ToUpper_none "SET k w EX7 NX"
  = Val ("SET", ["k"; "w"; "EX7"; "NX"])
  /\ is_Some (data ds_scalar !! "k")
  /\ HandleCommand amd64_int64_of_unrepresentable ParseFloat_rejecting
       unicode_ToUpper_none ds_scalar "SET k w EX7 NX" 1000 0
     = Returns (Str "Enter data sucessfull") StatusOK
         (store ds_scalar "k"
            {| value := "w"; expiry := 7000001000; isQueued := false; queue := [] |}).
Proof.
  split; [reflexivity|]. split; [eexists; reflexivity|].
  apply (HandleCommand_SET_four_args amd64_int64_of_unrepresentable
           ParseFloat_rejecting unicode_ToUpper_none ds_scalar "SET k w EX7 NX"
           "k" "w" "EX7" "NX" 1000 0); [reflexivity|reflexivity|simpl; lia].
Defined.

Lemma HandleCommand_SET_GET_roundtrip_witness :
  (ParseCommand unicode_ToUpper_none "set k w" = Val ("SET", ["k"; "w"])
   /\ ParseCommand unicode_ToUpper_none "get k" = Val ("GET", ["k"]))
  /\ exists ds1,
       HandleCommand amd64_int64_of_unrepresentable ParseFloat_rejecting
         unicode_ToUpper_none ds_expiring "set k w" 1000 0
       = Returns (Str "Enter data sucessfull") StatusOK ds1
       /\ HandleCommand amd64_int64_of_unrepresentable ParseFloat_rejecting
            unicode_ToUpper_none ds1 "get k" 99000000000 0
          = Returns (Fields {[ "value" := "w" ]}) StatusOK ds1.
Proof.
  split; [split; reflexivity|].
  apply (HandleCommand_SET_GET_roundtrip amd64_int64_of_unrepresentable
           ParseFloat_rejecting unicode_ToUpper_none ds_expiring
           "set k w" "get k" "k" "w" 1000 99000000000 0 0); reflexivity.
Defined.

Lemma HandleCommand_QPUSH_QPOP_roundtrip_witness :
  (ParseCommand unicode_ToUpper_none "QPUSH q b c" = Val ("QPUSH", "q" :: ["b"] ++ ["c"])
   /\ ParseCommand unicode_ToUpper_none "QPOP q" = Val ("QPOP", ["q"])
   /\ snd (fst (QPush ds_queue "q" (["b"] ++ ["c"]))) = StatusOK)
  /\ HandleCommand amd64_int64_of_unrepresentable ParseFloat_rejecting
       unicode_ToUpper_none (snd (QPush ds_queue "q" (["b"] ++ ["c"]))) "QPOP q" 2000 0
     = Returns (Fields {[ "value" := "c" ]}) StatusOK (snd (QPush ds_queue "q" ["b"])).
Proof.
  split; [repeat split; reflexivity|].
  exact (proj2 (HandleCommand_QPUSH_QPOP_roundtrip amd64_int64_of_unrepresentable
                  ParseFloat_rejecting unicode_ToUpper_none ds_queue
                  "QPUSH q b c" "QPOP q" "q" ["b"] "c" 1000 2000 0 0
                  eq_refl eq_refl eq_refl)).
Defined.

Lemma HandleCommand_BQPOP_with_data_witness :
  (ParseCommand unicode_ToUpper_none "bqpop q 5" = Val ("BQPOP", ["q"; "5"])
   /\ ParseCommand unicode_ToUpper_none "qpop q" = Val ("QPOP", ["q"])
   /\ snd (ParseFloat_whole "5") = false
   /\ nothing_to_pop (data ds_queue !! "q") = false)
  /\ HandleCommand amd64_int64_of_unrepresentable ParseFloat_whole
       unicode_ToUpper_none ds_queue "bqpop q 5" 1000 1
     = HandleCommand amd64_int64_of_unrepresentable ParseFloat_whole
         unicode_ToUpper_none ds_queue "qpop q" 1000 0.
Proof.
  split; [repeat split; reflexivity|].
  exact (HandleCommand_BQPOP_with_data amd64_int64_of_unrepresentable
           ParseFloat_whole unicode_ToUpper_none ds_queue "bqpop q 5" "qpop q"
           "q" "5" 1000 0 0 eq_refl eq_refl eq_refl eq_refl).
Defined.
